(** * circuit-watch: a count-based circuit breaker

    Shallow embedding of [src/circuit_watch.py] and the properties of its
    state machine and sliding outcome window.

    Conventions of the embedding:
    - Python [int] is [Z]; Python [float] configuration values and
      [time.time()] readings are exact rationals [Q] (no rounding is
      modelled; every comparison of the source is a comparison of the
      denoted rationals);
    - a [datetime] is a number of microseconds on the UTC time line ([Z]),
      which is the resolution of [datetime];
    - [None] is [option]'s [None];
    - a method is a computation in the monad [Py]: it threads the breaker
      object together with the outside world (the UTC clock, the listeners'
      notification log, the count of executions of wrapped work) and it
      either returns a value or raises an exception, keeping every mutation
      done before the exception was raised;
    - listeners are external collaborators: a listener is an identifier and
      calling one of its hooks appends to the world's notification log and
      returns normally;
    - the wrapped callable does not touch the breaker: it is described by
      its outcome and the two [time.time()] readings around it. The
      exceptions it raises are instances of [Exception]. *)

From Stdlib Require Import ZArith QArith List String Bool Lia.
Import ListNotations.
Local Open Scope Z_scope.

(** ** Enumerations and constants *)

Inductive CircuitState : Type :=
| OPEN_STATE
| CLOSED_STATE
| HALF_OPEN_STATE.

Inductive SlidingWindowType : Type :=
| COUNT_BASED
| TIME_BASED.

(** The [sliding_window_type] attribute holds either the enum member given
    by the caller or the default, which is the member's [.value] string. *)
Inductive WindowKind : Type :=
| KindMember (t : SlidingWindowType)
| KindValue (s : string).

Definition CircuitState_eqb (a b : CircuitState) : bool :=
  match a, b with
  | OPEN_STATE, OPEN_STATE
  | CLOSED_STATE, CLOSED_STATE
  | HALF_OPEN_STATE, HALF_OPEN_STATE => true
  | _, _ => false
  end.

Module CBConstants.
Definition DEFAULT_SLIDING_WINDOW_TYPE : WindowKind := KindValue "COUNT_BASED".
Definition DEFAULT_COUNT_BASED_WINDOW_SIZE : Z := 2.
Definition DEFAULT_TIME_BASED_WINDOW_SIZE : Z := 60.
Definition DEFAULT_FAILURE_RATE : Q := 1.
Definition DEFAULT_OPEN_STATE_DURATION : Q := 10.
Definition DEFAULT_HALF_OPEN_STATE_CALLS : Z := 1.
Definition DEFAULT_HALF_OPEN_STATE_DURATION : Q := 0.
End CBConstants.

(** ** Exceptions *)

Inductive Exn : Type :=
| CircuitOpenException
| CircuitExecutionTimeBreachedException
| TypeError
| IndexError
| ZeroDivisionError
| WorkError (name : string).

(** ** Data *)

Record CallDetail : Type := mkCallDetail {
  status : bool;
  timestamp : Z
}.

Record CircuitStorage : Type := mkCircuitStorage {
  sliding_window_type : WindowKind;
  count_based_window_size : Z;
  time_based_window_size : Z;
  failure_rate : Q;
  slow_call_duration : option Q;
  open_state_duration : Q;
  half_open_state_calls_threshold : Z;
  half_open_state_duration : Q;
  total_calls : list CallDetail;
  window_start_time : option Z;
  half_open_state_total_calls : Z;
  circuit_state : CircuitState
}.

Definition Listener : Type := nat.

Record CircuitBreaker : Type := mkCircuitBreaker {
  last_failure_time : option Z;
  listeners : list Listener;
  _storage_state : CircuitStorage
}.

(** Python's [x or default]: the default replaces [None] and every falsy
    value. *)
Definition py_or {A : Type} (falsy : A -> bool) (x : option A) (default : A) : A :=
  match x with
  | None => default
  | Some v => if falsy v then default else v
  end.

Definition falsy_int (n : Z) : bool := n =? 0.
Definition falsy_float (x : Q) : bool := Qnum x =? 0.
Definition falsy_member (t : WindowKind) : bool := false.

(** [CircuitStorage.__init__] *)
Definition CircuitStorage_init
    (sliding_window_type : option SlidingWindowType)
    (count_based_window_size time_based_window_size : option Z)
    (failure_rate slow_call_duration : option Q)
    (half_open_state_calls_threshold : option Z)
    (half_open_state_duration open_state_duration : option Q)
  : CircuitStorage :=
  {| sliding_window_type :=
       py_or falsy_member (option_map KindMember sliding_window_type)
             CBConstants.DEFAULT_SLIDING_WINDOW_TYPE;
     count_based_window_size :=
       py_or falsy_int count_based_window_size
             CBConstants.DEFAULT_COUNT_BASED_WINDOW_SIZE;
     time_based_window_size :=
       py_or falsy_int time_based_window_size
             CBConstants.DEFAULT_TIME_BASED_WINDOW_SIZE;
     failure_rate :=
       py_or falsy_float failure_rate CBConstants.DEFAULT_FAILURE_RATE;
     slow_call_duration := slow_call_duration;
     open_state_duration :=
       py_or falsy_float open_state_duration
             CBConstants.DEFAULT_OPEN_STATE_DURATION;
     half_open_state_calls_threshold :=
       py_or falsy_int half_open_state_calls_threshold
             CBConstants.DEFAULT_HALF_OPEN_STATE_CALLS;
     half_open_state_duration :=
       py_or falsy_float half_open_state_duration
             CBConstants.DEFAULT_HALF_OPEN_STATE_DURATION;
     total_calls := [];
     window_start_time := None;
     half_open_state_total_calls := 0;
     circuit_state := CLOSED_STATE |}.

(** [CircuitBreaker.__init__] *)
Definition CircuitBreaker_init
    (sliding_window_type : option SlidingWindowType)
    (count_based_window_size time_based_window_size : option Z)
    (failure_rate slow_call_duration : option Q)
    (half_open_state_calls_threshold : option Z)
    (half_open_state_duration open_state_duration : option Q)
    (listeners : list Listener)
  : CircuitBreaker :=
  {| last_failure_time := None;
     listeners := listeners;
     _storage_state :=
       CircuitStorage_init sliding_window_type count_based_window_size
         time_based_window_size failure_rate slow_call_duration
         half_open_state_calls_threshold half_open_state_duration
         open_state_duration |}.

(** Attribute assignments. *)
Definition set_total_calls (q : list CallDetail) (st : CircuitStorage) : CircuitStorage :=
  {| sliding_window_type := sliding_window_type st;
     count_based_window_size := count_based_window_size st;
     time_based_window_size := time_based_window_size st;
     failure_rate := failure_rate st;
     slow_call_duration := slow_call_duration st;
     open_state_duration := open_state_duration st;
     half_open_state_calls_threshold := half_open_state_calls_threshold st;
     half_open_state_duration := half_open_state_duration st;
     total_calls := q;
     window_start_time := window_start_time st;
     half_open_state_total_calls := half_open_state_total_calls st;
     circuit_state := circuit_state st |}.

Definition set_half_open_state_total_calls (n : Z) (st : CircuitStorage) : CircuitStorage :=
  {| sliding_window_type := sliding_window_type st;
     count_based_window_size := count_based_window_size st;
     time_based_window_size := time_based_window_size st;
     failure_rate := failure_rate st;
     slow_call_duration := slow_call_duration st;
     open_state_duration := open_state_duration st;
     half_open_state_calls_threshold := half_open_state_calls_threshold st;
     half_open_state_duration := half_open_state_duration st;
     total_calls := total_calls st;
     window_start_time := window_start_time st;
     half_open_state_total_calls := n;
     circuit_state := circuit_state st |}.

Definition set_circuit_state (s : CircuitState) (st : CircuitStorage) : CircuitStorage :=
  {| sliding_window_type := sliding_window_type st;
     count_based_window_size := count_based_window_size st;
     time_based_window_size := time_based_window_size st;
     failure_rate := failure_rate st;
     slow_call_duration := slow_call_duration st;
     open_state_duration := open_state_duration st;
     half_open_state_calls_threshold := half_open_state_calls_threshold st;
     half_open_state_duration := half_open_state_duration st;
     total_calls := total_calls st;
     window_start_time := window_start_time st;
     half_open_state_total_calls := half_open_state_total_calls st;
     circuit_state := s |}.

Definition set_storage (f : CircuitStorage -> CircuitStorage) (b : CircuitBreaker) : CircuitBreaker :=
  {| last_failure_time := last_failure_time b;
     listeners := listeners b;
     _storage_state := f (_storage_state b) |}.

Definition set_last_failure_time (t : option Z) (b : CircuitBreaker) : CircuitBreaker :=
  {| last_failure_time := t;
     listeners := listeners b;
     _storage_state := _storage_state b |}.

(** ** The outside world *)

Inductive Notification : Type :=
| NotifySuccess
| NotifyFailure (exc : Exn)
| NotifyStateChange (prev_state curr_state : CircuitState).

Record World : Type := mkWorld {
  utc_clock : nat -> Z;          (* the successive readings of datetime.utcnow() *)
  utc_reads : nat;               (* how many readings were taken so far *)
  work_runs : nat;               (* how many times wrapped work was executed *)
  notified : list (Listener * Notification)
}.

Record Sys : Type := mkSys {
  env : World;
  cb : CircuitBreaker
}.

(** ** The monad of methods *)

Inductive Result (A : Type) : Type :=
| Returned (a : A)
| Raised (e : Exn).
Arguments Returned {A} a.
Arguments Raised {A} e.

Definition Py (A : Type) : Type := Sys -> Sys * Result A.

Definition ret {A : Type} (a : A) : Py A := fun s => (s, Returned a).

Definition raise {A : Type} (e : Exn) : Py A := fun s => (s, Raised e).

Definition bind {A B : Type} (m : Py A) (k : A -> Py B) : Py B :=
  fun s =>
    match m s with
    | (s', Returned a) => k a s'
    | (s', Raised e) => (s', Raised e)
    end.

(** [try: m  except Exception as e: handler e] *)
Definition try_except {A : Type} (m : Py A) (handler : Exn -> Py A) : Py A :=
  fun s =>
    match m s with
    | (s', Returned a) => (s', Returned a)
    | (s', Raised e) => handler e s'
    end.

Declare Scope py_scope.
Delimit Scope py_scope with py.
Notation "x <- m ;; k" := (bind m (fun x => k))
  (at level 61, m at next level, right associativity) : py_scope.
Notation "m ;; k" := (bind m (fun _ => k))
  (at level 61, right associativity) : py_scope.
Local Open Scope py_scope.

Definition self : Py CircuitBreaker := fun s => (s, Returned (cb s)).

Definition storage : Py CircuitStorage :=
  fun s => (s, Returned (_storage_state (cb s))).

Definition assign (f : CircuitBreaker -> CircuitBreaker) : Py unit :=
  fun s => ({| env := env s; cb := f (cb s) |}, Returned tt).

Definition assign_storage (f : CircuitStorage -> CircuitStorage) : Py unit :=
  assign (set_storage f).

(** [datetime.utcnow()] *)
Definition utcnow : Py Z :=
  fun s =>
    let w := env s in
    ({| env := {| utc_clock := utc_clock w;
                  utc_reads := S (utc_reads w);
                  work_runs := work_runs w;
                  notified := notified w |};
        cb := cb s |},
     Returned (utc_clock w (utc_reads w))).

(** [if self.listeners: for listener in self.listeners: listener.hook(...)] *)
Definition notify (n : Notification) : Py unit :=
  fun s =>
    let w := env s in
    ({| env := {| utc_clock := utc_clock w;
                  utc_reads := utc_reads w;
                  work_runs := work_runs w;
                  notified := notified w ++ map (fun l => (l, n)) (listeners (cb s)) |};
        cb := cb s |},
     Returned tt).

(** ** [datetime] arithmetic *)

Definition MICROSECONDS_PER_SECOND : Z := 1000000.
Definition SECONDS_PER_DAY : Z := 86400.

(** The [.seconds] attribute of a [timedelta] of [us] microseconds: a
    [timedelta] is normalised to days, seconds in [0, 86400) and
    microseconds in [0, 10^6), and [.seconds] is the middle component. *)
Definition timedelta_seconds (us : Z) : Z :=
  (us mod (SECONDS_PER_DAY * MICROSECONDS_PER_SECOND)) / MICROSECONDS_PER_SECOND.

(** The true elapsed time of a [timedelta], in seconds
    ([timedelta.total_seconds()]). *)
Definition timedelta_total_seconds (us : Z) : Q :=
  inject_Z us / inject_Z MICROSECONDS_PER_SECOND.

(** ** Methods of [CircuitBreaker] *)

Definition reset_calls : Py unit :=
  assign_storage (set_total_calls []).

Definition set_circuit_breaker_state (state : CircuitState) : Py unit :=
  st <- storage ;;
  let prev_state := circuit_state st in
  assign_storage (set_circuit_state state) ;;
  notify (NotifyStateChange prev_state state).

Definition update_last_failure_time : Py unit :=
  now <- utcnow ;;
  assign (set_last_failure_time (Some now)).

Definition update_circuit_state (updated_circuit_state : CircuitState) : Py unit :=
  assign_storage (set_circuit_state updated_circuit_state).

(** [fail_counter] after the [for] loop of [check_if_max_fails_reached] *)
Definition count_fails (calls : list CallDetail) : Z :=
  fold_left (fun fail_counter call =>
               fail_counter + (if status call then 0 else 1)) calls 0.

Definition check_if_max_fails_reached : Py bool :=
  st <- storage ;;
  let calls := total_calls st in
  let total_calls := Z.of_nat (List.length calls) in
  let max_fails_reached := total_calls >=? count_based_window_size st in
  if max_fails_reached then
    let fail_counter := count_fails calls in
    if total_calls =? 0 then raise ZeroDivisionError
    else ret (Qle_bool (failure_rate st)
                       (inject_Z fail_counter / inject_Z total_calls))
  else ret max_fails_reached.

Definition check_if_open_state_duration_elapsed : Py bool :=
  now <- utcnow ;;
  b <- self ;;
  match last_failure_time b with
  | None => raise TypeError
  | Some t =>
      ret (Qle_bool (open_state_duration (_storage_state b))
                    (inject_Z (timedelta_seconds (now - t))))
  end.

(** The [while] loop of [update_total_calls_details] on the deque [q]: the
    deque it leaves, and whether [popleft] was reached on an empty deque
    (which raises [IndexError]). *)
Fixpoint popleft_while (size : Z) (q : list CallDetail) : list CallDetail * bool :=
  match q with
  | [] => ([], 0 >? size)
  | _ :: q' =>
      if Z.of_nat (List.length q) >? size then popleft_while size q' else (q, false)
  end.

Definition update_total_calls_details : Py unit :=
  st <- storage ;;
  let (q, empty_pop) := popleft_while (count_based_window_size st) (total_calls st) in
  assign_storage (set_total_calls q) ;;
  if empty_pop then raise IndexError else ret tt.

Definition add_call_detail (status : bool) : Py unit :=
  now <- utcnow ;;
  assign_storage (fun st => set_total_calls (total_calls st ++ [mkCallDetail status now]) st) ;;
  update_total_calls_details.

Definition check_if_execution_time_breached (start_time end_time : Q) : Py unit :=
  st <- storage ;;
  match slow_call_duration st with
  | Some d =>
      if Qle_bool d (end_time - start_time)
      then raise CircuitExecutionTimeBreachedException
      else ret tt
  | None => ret tt
  end.

Definition increment_half_open_state_success_calls : Py unit :=
  assign_storage (fun st =>
    set_half_open_state_total_calls (half_open_state_total_calls st + 1) st).

Definition reset_half_open_state_calls_counter : Py unit :=
  assign_storage (set_half_open_state_total_calls 0).

Definition check_half_open_call_success : Py bool :=
  st <- storage ;;
  ret (half_open_state_total_calls st >=? half_open_state_calls_threshold st).

Definition circuit_close : Py unit :=
  assign_storage (set_circuit_state CLOSED_STATE).

Definition circuit_open : Py unit :=
  assign_storage (set_circuit_state OPEN_STATE).

Definition circuit_half_open : Py unit :=
  assign_storage (set_circuit_state HALF_OPEN_STATE).

(** ** State handlers *)

(** The protocol of [CircuitBreakerState]: one handler class per state. *)
Record CircuitBreakerState : Type := mkHandler {
  on_success : Py unit;
  on_failure : Exn -> Py unit;
  before_call : Py unit
}.

Module Base.
Definition on_success : Py unit :=
  add_call_detail true ;;
  notify NotifySuccess.

Definition on_failure (exc : Exn) : Py unit :=
  notify (NotifyFailure exc).

Definition before_call : Py unit := ret tt.
End Base.

Definition CircuitCloseState : CircuitBreakerState :=
  {| on_success := Base.on_success;
     on_failure := fun exc =>
       add_call_detail false ;;
       update_last_failure_time ;;
       tripped <- check_if_max_fails_reached ;;
       (if tripped : bool then set_circuit_breaker_state OPEN_STATE else ret tt) ;;
       Base.on_failure exc;
     before_call := Base.before_call |}.

Definition CircuitOpenState : CircuitBreakerState :=
  {| on_success := Base.on_success;
     on_failure := fun exc => ret tt;
     before_call :=
       elapsed <- check_if_open_state_duration_elapsed ;;
       if elapsed : bool then set_circuit_breaker_state HALF_OPEN_STATE
       else raise CircuitOpenException |}.

Definition CircuitHalfOpenState : CircuitBreakerState :=
  {| on_success :=
       increment_half_open_state_success_calls ;;
       enough <- check_half_open_call_success ;;
       if enough : bool then
         set_circuit_breaker_state CLOSED_STATE ;;
         reset_calls ;;
         reset_half_open_state_calls_counter
       else ret tt;
     on_failure := fun exc =>
       set_circuit_breaker_state OPEN_STATE ;;
       update_last_failure_time ;;
       reset_half_open_state_calls_counter;
     before_call := ret tt |}.

(** ** Dispatch and the protecting wrapper *)

(** The dictionary of [get_circuit_state], from state tag to handler class. *)
Definition handler_class (state : CircuitState) : CircuitBreakerState :=
  match state with
  | OPEN_STATE => CircuitOpenState
  | CLOSED_STATE => CircuitCloseState
  | HALF_OPEN_STATE => CircuitHalfOpenState
  end.

Definition get_circuit_state : Py CircuitBreakerState :=
  st <- storage ;;
  ret (handler_class (circuit_state st)).

Definition handle_before_call : Py unit :=
  circuit_state <- get_circuit_state ;;
  before_call circuit_state.

Definition handle_success : Py unit :=
  circuit_state <- get_circuit_state ;;
  on_success circuit_state.

Definition handle_failure (exc : Exn) : Py unit :=
  circuit_state <- get_circuit_state ;;
  on_failure circuit_state exc.

(** A wrapped callable, as the breaker sees one execution of it: the
    [time.time()] reading taken before it runs, what it does, and the
    [time.time()] reading at the moment it finishes. *)
Record Work (V : Type) : Type := mkWork {
  began : Q;
  outcome : Result V;
  ended : Q
}.
Arguments mkWork {V} began outcome ended.
Arguments began {V} w.
Arguments outcome {V} w.
Arguments ended {V} w.

(** The call of the wrapped [func] inside the wrapper *)
Definition run {V : Type} (func : Work V) : Py V :=
  fun s =>
    let w := env s in
    ({| env := {| utc_clock := utc_clock w;
                  utc_reads := utc_reads w;
                  work_runs := S (work_runs w);
                  notified := notified w |};
        cb := cb s |},
     outcome func).

(** [CircuitBreaker.__call__]'s [wrapper] *)
Definition wrapper {V : Type} (func : Work V) : Py V :=
  handle_before_call ;;
  try_except
    (let start_time := began func in
     result <- run func ;;
     check_if_execution_time_breached start_time (ended func) ;;
     handle_success ;;
     ret result)
    (fun cbe =>
       handle_failure cbe ;;
       raise cbe).

(** ** Observations on a system state *)

Definition storage_of (s : Sys) : CircuitStorage := _storage_state (cb s).
Definition state_of (s : Sys) : CircuitState := circuit_state (storage_of s).
Definition window_of (s : Sys) : list CallDetail := total_calls (storage_of s).
Definition window_size_of (s : Sys) : Z := count_based_window_size (storage_of s).

(** The state a computation leaves and what it gives back to its caller. *)
Definition after {A : Type} (m : Py A) (s : Sys) : Sys := fst (m s).
Definition result_of {A : Type} (m : Py A) (s : Sys) : Result A := snd (m s).

(** A freshly constructed breaker in a given world. *)
Definition fresh (w : World) (b : CircuitBreaker) : Sys := {| env := w; cb := b |}.

(** Protected calls made one after the other. *)
Fixpoint wrapper_all {V : Type} (funcs : list (Work V)) (s : Sys) : Sys * list (Result V) :=
  match funcs with
  | [] => (s, [])
  | func :: rest =>
      let (s1, r) := wrapper func s in
      let (s2, rs) := wrapper_all rest s1 in
      (s2, r :: rs)
  end.

(** Whether the duration check of the wrapper raises for this execution. *)
Definition breached {V : Type} (st : CircuitStorage) (func : Work V) : bool :=
  match slow_call_duration st with
  | Some d => Qle_bool d (ended func - began func)
  | None => false
  end.

(** The status under which one execution of the work is recorded. *)
Definition succeeds {V : Type} (st : CircuitStorage) (func : Work V) : bool :=
  match outcome func with
  | Returned _ => negb (breached st func)
  | Raised _ => false
  end.


(** ** The methods of the breaker as operations *)

(** Every method of [CircuitBreaker], and the protected call. *)
Inductive Method (V : Type) : Type :=
| m_reset_calls
| m_set_circuit_breaker_state (state : CircuitState)
| m_update_last_failure_time
| m_update_circuit_state (updated_circuit_state : CircuitState)
| m_check_if_max_fails_reached
| m_check_if_open_state_duration_elapsed
| m_update_total_calls_details
| m_add_call_detail (status : bool)
| m_check_if_execution_time_breached (start_time end_time : Q)
| m_increment_half_open_state_success_calls
| m_reset_half_open_state_calls_counter
| m_check_half_open_call_success
| m_handle_before_call
| m_handle_success
| m_handle_failure (exc : Exn)
| m_circuit_close
| m_circuit_open
| m_circuit_half_open
| m_call (func : Work V).
Arguments m_reset_calls {V}.
Arguments m_set_circuit_breaker_state {V} state.
Arguments m_update_last_failure_time {V}.
Arguments m_update_circuit_state {V} updated_circuit_state.
Arguments m_check_if_max_fails_reached {V}.
Arguments m_check_if_open_state_duration_elapsed {V}.
Arguments m_update_total_calls_details {V}.
Arguments m_add_call_detail {V} status.
Arguments m_check_if_execution_time_breached {V} start_time end_time.
Arguments m_increment_half_open_state_success_calls {V}.
Arguments m_reset_half_open_state_calls_counter {V}.
Arguments m_check_half_open_call_success {V}.
Arguments m_handle_before_call {V}.
Arguments m_handle_success {V}.
Arguments m_handle_failure {V} exc.
Arguments m_circuit_close {V}.
Arguments m_circuit_open {V}.
Arguments m_circuit_half_open {V}.
Arguments m_call {V} func.

(** A computation run for its effect. *)
Definition discard {A : Type} (m : Py A) : Py unit := _ <- m ;; ret tt.

Definition invoke {V : Type} (m : Method V) : Py unit :=
  match m with
  | m_reset_calls => reset_calls
  | m_set_circuit_breaker_state state => set_circuit_breaker_state state
  | m_update_last_failure_time => update_last_failure_time
  | m_update_circuit_state state => update_circuit_state state
  | m_check_if_max_fails_reached => discard check_if_max_fails_reached
  | m_check_if_open_state_duration_elapsed => discard check_if_open_state_duration_elapsed
  | m_update_total_calls_details => update_total_calls_details
  | m_add_call_detail status => add_call_detail status
  | m_check_if_execution_time_breached start_time end_time =>
      check_if_execution_time_breached start_time end_time
  | m_increment_half_open_state_success_calls => increment_half_open_state_success_calls
  | m_reset_half_open_state_calls_counter => reset_half_open_state_calls_counter
  | m_check_half_open_call_success => discard check_half_open_call_success
  | m_handle_before_call => handle_before_call
  | m_handle_success => handle_success
  | m_handle_failure exc => handle_failure exc
  | m_circuit_close => circuit_close
  | m_circuit_open => circuit_open
  | m_circuit_half_open => circuit_half_open
  | m_call func => discard (wrapper func)
  end.

Definition invoke_all {V : Type} (ms : list (Method V)) (s : Sys) : Sys :=
  fold_left (fun s m => after (invoke m) s) ms s.

(** ** Vocabulary of the properties *)

(** The window holds at most [count_based_window_size] records. *)
Definition window_bounded (s : Sys) : Prop :=
  Z.of_nat (List.length (window_of s)) <= window_size_of s.

(** What [update_total_calls_details] leaves of a deque when the window
    size is not negative: its most recent [size] records. *)
Definition evicted (size : Z) (q : list CallDetail) : list CallDetail :=
  skipn (List.length q - Z.to_nat size) q.

(** The [n] most recent entries of a history, oldest first. *)
Definition lastn {A : Type} (n : nat) (l : list A) : list A :=
  skipn (List.length l - n) l.

Definition failures (outcomes : list bool) : Z :=
  Z.of_nat (List.length (filter negb outcomes)).

Definition failure_fraction (outcomes : list bool) : Q :=
  inject_Z (failures outcomes) / inject_Z (Z.of_nat (List.length outcomes)).

(** The breaker is CLOSED after each of the calls [funcs] made from [s]. *)
Fixpoint closed_throughout {V : Type} (funcs : list (Work V)) (s : Sys) : Prop :=
  match funcs with
  | [] => True
  | func :: rest =>
      state_of (after (wrapper func) s) = CLOSED_STATE
      /\ closed_throughout rest (after (wrapper func) s)
  end.

(** The [k]-th coming reading of the UTC clock. *)
Definition reading (s : Sys) (k : nat) : Z :=
  utc_clock (env s) (utc_reads (env s) + k).

(** At UTC time [now] the last failure is in the past and less than the
    open-state duration has gone by since. *)
Definition cooling_down (b : CircuitBreaker) (now : Z) : Prop :=
  exists t, last_failure_time b = Some t
            /\ 0 <= now - t
            /\ (timedelta_total_seconds (now - t) < open_state_duration (_storage_state b))%Q.

(** The operations in which the source assigns [last_failure_time]: the
    setter itself, and its two callers, [on_failure] of the closed and of
    the half-open handler, reached by [handle_failure] or by a protected
    call that was admitted and failed. *)
Definition observes_failure {V : Type} (m : Method V) (s : Sys) : Prop :=
  match m with
  | m_update_last_failure_time => True
  | m_handle_failure _ =>
      state_of s = CLOSED_STATE \/ state_of s = HALF_OPEN_STATE
  | m_call func =>
      result_of handle_before_call s = Returned tt
      /\ succeeds (storage_of s) func = false
      /\ (state_of (after handle_before_call s) = CLOSED_STATE
          \/ state_of (after handle_before_call s) = HALF_OPEN_STATE)
  | _ => False
  end.

(** A computation keeps a property of the breaker object. *)
Definition preserves {A : Type} (P : CircuitBreaker -> Prop) (m : Py A) : Prop :=
  forall s : Sys, P (cb s) -> P (cb (after m s)).

(** The breaker after [add_call_detail status] at time [now], when the
    window size is not negative. *)
Definition recorded (status : bool) (now : Z) (b : CircuitBreaker) : CircuitBreaker :=
  set_storage
    (fun st => set_total_calls
                 (evicted (count_based_window_size st)
                          (total_calls st ++ [mkCallDetail status now])) st)
    b.

(** The answer of [check_if_max_fails_reached] on a window that is not
    empty. *)
Definition trips (st : CircuitStorage) : bool :=
  (Z.of_nat (List.length (total_calls st)) >=? count_based_window_size st)
  && Qle_bool (failure_rate st)
              (inject_Z (count_fails (total_calls st))
               / inject_Z (Z.of_nat (List.length (total_calls st)))).

(** The window of a breaker of window size [size] holds at most [size]
    records. *)
Definition bounded_by (size : Z) (b : CircuitBreaker) : Prop :=
  count_based_window_size (_storage_state b) = size
  /\ Z.of_nat (List.length (total_calls (_storage_state b))) <= size.

(** The exception handed to [handle_failure] when an execution of the work
    is not a success. *)
Definition failure_cause {V : Type} (func : Work V) : Exn :=
  match outcome func with
  | Raised e => e
  | Returned _ => CircuitExecutionTimeBreachedException
  end.

Definition counter_of (s : Sys) : Z := half_open_state_total_calls (storage_of s).
Definition threshold_of (s : Sys) : Z := half_open_state_calls_threshold (storage_of s).

(** The breaker after [on_success] of the half-open handler. *)
Definition half_open_succeeded (b : CircuitBreaker) : CircuitBreaker :=
  let st := _storage_state b in
  if half_open_state_total_calls st + 1 >=? half_open_state_calls_threshold st
  then set_storage
         (fun st => set_half_open_state_total_calls 0
                      (set_total_calls [] (set_circuit_state CLOSED_STATE st))) b
  else set_storage
         (fun st => set_half_open_state_total_calls
                      (half_open_state_total_calls st + 1) st) b.

(** The breaker after [on_failure] of the half-open handler at time [now]. *)
Definition half_open_failed (now : Z) (b : CircuitBreaker) : CircuitBreaker :=
  set_storage (set_half_open_state_total_calls 0)
    (set_last_failure_time (Some now)
       (set_storage (set_circuit_state OPEN_STATE) b)).

(** The system once the wrapped work has been executed. *)
Definition executed (s : Sys) : Sys :=
  {| env := {| utc_clock := utc_clock (env s);
               utc_reads := utc_reads (env s);
               work_runs := S (work_runs (env s));
               notified := notified (env s) |};
     cb := cb s |}.

(** The breaker after [on_failure] of the closed handler, when the record
    is created at time [t_record] and the failure time is read at
    [t_failure], and the window size is at least one. *)
Definition closed_failed (t_record t_failure : Z) (b : CircuitBreaker) : CircuitBreaker :=
  let b1 := set_last_failure_time (Some t_failure) (recorded false t_record b) in
  if trips (_storage_state b1)
  then set_storage (set_circuit_state OPEN_STATE) b1
  else b1.

(** The last failure time is [t]. *)
Definition kept (t : option Z) (b : CircuitBreaker) : Prop :=
  last_failure_time b = t.

(** The last failure time, the state tag and the window size are [t],
    [state] and [size]. *)
Definition settled (t : option Z) (state : CircuitState) (size : Z)
    (b : CircuitBreaker) : Prop :=
  last_failure_time b = t
  /\ circuit_state (_storage_state b) = state
  /\ count_based_window_size (_storage_state b) = size.

(** The configuration part of the storage. *)
Definition config_of (st : CircuitStorage)
  : WindowKind * Z * Z * Q * option Q * Q * Z * Q :=
  (sliding_window_type st, count_based_window_size st, time_based_window_size st,
   failure_rate st, slow_call_duration st, open_state_duration st,
   half_open_state_calls_threshold st, half_open_state_duration st).

(** ** Scenarios *)

Module Scenario.

(** A clock that advances one millisecond per reading. *)
Definition steady_clock (n : nat) : Z := Z.of_nat n * 1000.

(** A clock whose first [n0] readings are 0 and whose later readings are
    [later] microseconds. *)
Definition jump_clock (n0 : nat) (later : Z) (n : nat) : Z :=
  if (n <? n0)%nat then 0 else later.

Definition world (clock : nat -> Z) : World :=
  {| utc_clock := clock; utc_reads := 0; work_runs := 0; notified := [] |}.

(** Work that returns at once, and work that raises at once. *)
Definition S_ : Work Z := mkWork 0 (Returned 42) 0.
Definition F_ : Work Z := mkWork 0 (Raised (WorkError "ZeroDivisionError")) 0.

(** Work that takes two seconds and returns, or raises. *)
Definition slow_return : Work Z := mkWork 5 (Returned 42) 7.
Definition slow_raise : Work Z := mkWork 5 (Raised (WorkError "ZeroDivisionError")) 7.

(** [CircuitBreaker()] *)
Definition default_breaker : CircuitBreaker :=
  CircuitBreaker_init None None None None None None None None [].

(** [CircuitBreaker(sliding_window_type=SlidingWindowType.COUNT_BASED,
                    count_based_window_size=10, failure_rate=0.5)],
    the breaker of the source's demonstration, observed by one listener. *)
Definition demo_breaker : CircuitBreaker :=
  CircuitBreaker_init (Some COUNT_BASED) (Some 10) None (Some (1 # 2)%Q)
                      None None None None [0%nat].

(** [CircuitBreaker(slow_call_duration=1.0)], observed by one listener. *)
Definition slow_breaker : CircuitBreaker :=
  CircuitBreaker_init None None None None (Some 1%Q) None None None [0%nat].

(** [CircuitBreaker(half_open_state_calls_threshold=2)] *)
Definition two_trials_breaker : CircuitBreaker :=
  CircuitBreaker_init None None None None None (Some 2) None None [].

(** The default breaker after two failed calls at time 0: it is open. *)
Definition tripped (later : Z) : Sys :=
  fst (wrapper_all [F_; F_] (fresh (world (jump_clock 4 later)) default_breaker)).

(** The same for the breaker that wants two trial calls. *)
Definition tripped_two_trials (later : Z) : Sys :=
  fst (wrapper_all [F_; F_] (fresh (world (jump_clock 4 later)) two_trials_breaker)).

(** A half-open breaker at the start of a batch of three trial calls. *)
Definition half_open_three_trials : Sys :=
  fresh (world steady_clock)
    (set_storage (set_circuit_state HALF_OPEN_STATE)
       (CircuitBreaker_init None None None None None (Some 3) None None [])).

End Scenario.

(** * Configuration *)

Module Config.

Lemma py_or_int_nonzero (x : option Z) (d : Z) :
  d <> 0 -> py_or falsy_int x d <> 0.
Proof.
  intros Hd. unfold py_or, falsy_int.
  destruct x as [v|]; [|exact Hd].
  destruct (v =? 0) eqn:E; [exact Hd|].
  now apply Z.eqb_neq.
Qed.

Lemma py_or_float_nonzero (x : option Q) (d : Q) :
  ~ (d == 0)%Q -> ~ (py_or falsy_float x d == 0)%Q.
Proof.
  intros Hd. unfold py_or, falsy_float.
  destruct x as [v|]; [|exact Hd].
  destruct (Qnum v =? 0) eqn:E; [exact Hd|].
  apply Z.eqb_neq in E. unfold Qeq. simpl. lia.
Qed.

(** C10. A zero passed for the window size, the failure rate, the open-state
    duration or the half-open calls threshold is replaced by the default
    (2, 1.0, 10.0 and 1), and no construction stores a zero for any of
    the four. *)
Theorem falsy_arguments_are_defaulted :
  forall (swt : option SlidingWindowType) (cw tw : option Z) (fr scd : option Q)
         (hc : option Z) (hd osd : option Q) (ls : list Listener),
    count_based_window_size
      (_storage_state (CircuitBreaker_init swt (Some 0) tw fr scd hc hd osd ls)) = 2
    /\ failure_rate
      (_storage_state (CircuitBreaker_init swt cw tw (Some 0%Q) scd hc hd osd ls)) = 1%Q
    /\ open_state_duration
      (_storage_state (CircuitBreaker_init swt cw tw fr scd hc hd (Some 0%Q) ls)) = 10%Q
    /\ half_open_state_calls_threshold
      (_storage_state (CircuitBreaker_init swt cw tw fr scd (Some 0) hd osd ls)) = 1
    /\ (let st := _storage_state (CircuitBreaker_init swt cw tw fr scd hc hd osd ls) in
        count_based_window_size st <> 0
        /\ ~ (failure_rate st == 0)%Q
        /\ ~ (open_state_duration st == 0)%Q
        /\ half_open_state_calls_threshold st <> 0).
Proof.
  intros. repeat split; try reflexivity; cbn [CircuitBreaker_init CircuitStorage_init
    _storage_state count_based_window_size failure_rate open_state_duration
    half_open_state_calls_threshold].
  - apply py_or_int_nonzero. discriminate.
  - apply py_or_float_nonzero. discriminate.
  - apply py_or_float_nonzero. discriminate.
  - apply py_or_int_nonzero. discriminate.
Qed.

End Config.

(** * Unfolding the methods *)

Ltac py_unfold :=
  unfold wrapper, handle_before_call, handle_success, handle_failure,
    get_circuit_state, handler_class, try_except, run,
    CircuitCloseState, CircuitOpenState, CircuitHalfOpenState,
    Base.on_success, Base.on_failure, Base.before_call,
    set_circuit_breaker_state, update_last_failure_time, update_circuit_state,
    check_if_max_fails_reached, check_if_open_state_duration_elapsed,
    add_call_detail, update_total_calls_details,
    check_if_execution_time_breached,
    increment_half_open_state_success_calls,
    reset_half_open_state_calls_counter, check_half_open_call_success,
    reset_calls, circuit_close, circuit_open, circuit_half_open,
    notify, utcnow, assign_storage, assign, storage, self,
    discard, bind, ret, raise, after, result_of in *.

Ltac py_obs :=
  unfold state_of, window_of, window_size_of, storage_of, window_bounded in *.

(** * The permission check of the open state *)

Module OpenState.

Lemma before_call_without_failure_time (s : Sys) :
  state_of s = OPEN_STATE ->
  last_failure_time (cb s) = None ->
  result_of handle_before_call s = Raised TypeError
  /\ cb (after handle_before_call s) = cb s
  /\ work_runs (env (after handle_before_call s)) = work_runs (env s)
  /\ notified (env (after handle_before_call s)) = notified (env s).
Proof.
  py_obs. intros Hst Hlft. py_unfold. cbn.
  rewrite Hst. cbn. rewrite Hlft. cbn. auto.
Qed.

Lemma wrapper_stops_at_permission {V : Type} (func : Work V) (s : Sys) (e : Exn) :
  result_of handle_before_call s = Raised e ->
  wrapper func s = (after handle_before_call s, Raised e).
Proof.
  unfold result_of, after, wrapper, bind.
  destruct (handle_before_call s) as [s1 [[]|e1]]; cbn; intros H; congruence.
Qed.

Lemma before_call_with_failure_time (s : Sys) (t : Z) :
  state_of s = OPEN_STATE ->
  last_failure_time (cb s) = Some t ->
  result_of handle_before_call s = Returned tt
  \/ result_of handle_before_call s = Raised CircuitOpenException.
Proof.
  py_obs. intros Hst Hlft. py_unfold. cbn.
  rewrite Hst. cbn. rewrite Hlft. cbn.
  destruct (Qle_bool _ _); cbn; auto.
Qed.

(** C9. A breaker that was put in the open state by
    [set_circuit_breaker_state] before it saw any failure has no last
    failure time, and its next protected call ends in a [TypeError] raised
    by the elapsed-duration check: the work is not run and the breaker is
    left as it was. In the open state the permission check raises
    [TypeError] whenever the last failure time is [None], and never when it
    is set. *)
Theorem open_without_failure_time_raises_TypeError :
  forall (V : Type)
         (swt : option SlidingWindowType) (cw tw : option Z) (fr scd : option Q)
         (hc : option Z) (hd osd : option Q) (ls : list Listener)
         (w : World) (func : Work V),
    let opened :=
      after (set_circuit_breaker_state OPEN_STATE)
            (fresh w (CircuitBreaker_init swt cw tw fr scd hc hd osd ls)) in
    (state_of opened = OPEN_STATE
     /\ last_failure_time (cb opened) = None
     /\ result_of (wrapper func) opened = Raised TypeError
     /\ cb (after (wrapper func) opened) = cb opened
     /\ work_runs (env (after (wrapper func) opened)) = work_runs (env opened))
    /\ (forall s : Sys,
          state_of s = OPEN_STATE ->
          (last_failure_time (cb s) = None <->
           result_of handle_before_call s = Raised TypeError)).
Proof.
  intros. split.
  - assert (Hst : state_of opened = OPEN_STATE) by reflexivity.
    assert (Hlft : last_failure_time (cb opened) = None) by reflexivity.
    destruct (before_call_without_failure_time opened Hst Hlft) as (Hr & Hcb & Hruns & _).
    unfold result_of, after.
    rewrite (wrapper_stops_at_permission func opened TypeError Hr). cbn [fst snd].
    auto.
  - intros s Hst. split.
    + intros Hlft. now apply before_call_without_failure_time.
    + intros Hr. destruct (last_failure_time (cb s)) as [t|] eqn:Hlft; [|reflexivity].
      destruct (before_call_with_failure_time s t Hst Hlft) as [H|H];
        rewrite H in Hr; discriminate.
Qed.

(** The permission check on the default breaker forced open in a fresh
    world. *)
Lemma open_without_failure_time_witness :
  let s := after (set_circuit_breaker_state OPEN_STATE)
                 (fresh (Scenario.world Scenario.steady_clock) Scenario.default_breaker) in
  state_of s = OPEN_STATE
  /\ (last_failure_time (cb s) = None <->
      result_of handle_before_call s = Raised TypeError).
Proof.
  split; [reflexivity|].
  apply (open_without_failure_time_raises_TypeError Z None None None None None None
           None None [] (Scenario.world Scenario.steady_clock) Scenario.S_).
  reflexivity.
Defined.

End OpenState.

(** * Properties kept by every method *)

Section Preservation.

Variable P : CircuitBreaker -> Prop.

Lemma preserves_ret {A : Type} (a : A) : preserves P (ret a).
Proof. intros s H. exact H. Qed.

Lemma preserves_raise {A : Type} (e : Exn) : preserves P (@raise A e).
Proof. intros s H. exact H. Qed.

Lemma preserves_bind {A B : Type} (m : Py A) (k : A -> Py B) :
  preserves P m -> (forall a, preserves P (k a)) -> preserves P (bind m k).
Proof.
  intros Hm Hk s H. unfold after, bind. specialize (Hm s H). unfold after in Hm.
  destruct (m s) as [s1 [a|e]]; cbn in *; [|exact Hm].
  apply (Hk a s1 Hm).
Qed.

Lemma preserves_try_except {A : Type} (m : Py A) (h : Exn -> Py A) :
  preserves P m -> (forall e, preserves P (h e)) -> preserves P (try_except m h).
Proof.
  intros Hm Hh s H. unfold after, try_except. specialize (Hm s H). unfold after in Hm.
  destruct (m s) as [s1 [a|e]]; cbn in *; [exact Hm|].
  apply (Hh e s1 Hm).
Qed.

Lemma preserves_storage : preserves P storage.
Proof. intros s H. exact H. Qed.

Lemma preserves_self : preserves P self.
Proof. intros s H. exact H. Qed.

Lemma preserves_utcnow : preserves P utcnow.
Proof. intros s H. exact H. Qed.

Lemma preserves_notify (n : Notification) : preserves P (notify n).
Proof. intros s H. exact H. Qed.

Lemma preserves_run {V : Type} (func : Work V) : preserves P (run func).
Proof. intros s H. exact H. Qed.

Lemma preserves_assign (f : CircuitBreaker -> CircuitBreaker) :
  (forall b, P b -> P (f b)) -> preserves P (assign f).
Proof. intros Hf s H. apply Hf, H. Qed.

Lemma preserves_check_if_execution_time_breached (a b : Q) :
  preserves P (check_if_execution_time_breached a b).
Proof.
  unfold check_if_execution_time_breached.
  apply preserves_bind; [apply preserves_storage|]. intros st.
  destruct (slow_call_duration st); [destruct (Qle_bool _ _)|];
    auto using preserves_ret, preserves_raise.
Qed.

Lemma preserves_check_if_max_fails_reached :
  preserves P check_if_max_fails_reached.
Proof.
  unfold check_if_max_fails_reached.
  apply preserves_bind; [apply preserves_storage|]. intros st. cbv zeta.
  destruct (_ >=? _); [destruct (_ =? _)|];
    auto using preserves_ret, preserves_raise.
Qed.

Lemma preserves_check_if_open_state_duration_elapsed :
  preserves P check_if_open_state_duration_elapsed.
Proof.
  unfold check_if_open_state_duration_elapsed.
  apply preserves_bind; [apply preserves_utcnow|]. intros now.
  apply preserves_bind; [apply preserves_self|]. intros b.
  destruct (last_failure_time b); auto using preserves_ret, preserves_raise.
Qed.

Lemma preserves_check_half_open_call_success :
  preserves P check_half_open_call_success.
Proof.
  unfold check_half_open_call_success.
  apply preserves_bind; [apply preserves_storage|]. intros st. apply preserves_ret.
Qed.

(** A property that does not look at the window is kept by the two
    methods that write only the window. *)
Lemma preserves_update_total_calls_details_blind :
  (forall q b, P b -> P (set_storage (set_total_calls q) b)) ->
  preserves P update_total_calls_details.
Proof.
  intros Hq s H. unfold after, update_total_calls_details, bind, storage.
  destruct (popleft_while _ _) as [q [|]]; apply (Hq q (cb s) H).
Qed.

Lemma preserves_add_call_detail_blind (status : bool) :
  (forall q b, P b -> P (set_storage (set_total_calls q) b)) ->
  preserves P (add_call_detail status).
Proof.
  intros Hq. unfold add_call_detail.
  apply preserves_bind; [apply preserves_utcnow|]. intros now.
  apply preserves_bind;
    [|intros _; apply preserves_update_total_calls_details_blind; exact Hq].
  apply preserves_assign. intros b H.
  apply (Hq (total_calls (_storage_state b) ++ [mkCallDetail status now]) b H).
Qed.

(** What the property has to allow: the assignments the methods make,
    one hypothesis per attribute that is written. *)
Hypothesis P_circuit_state :
  forall state b, P b -> P (set_storage (set_circuit_state state) b).
Hypothesis P_counter :
  forall f b, P b -> P (set_storage (fun st => set_half_open_state_total_calls (f st) st) b).
Hypothesis P_reset_calls :
  forall b, P b -> P (set_storage (set_total_calls []) b).
Hypothesis P_add_call_detail :
  forall status, preserves P (add_call_detail status).
Hypothesis P_update_total_calls_details :
  preserves P update_total_calls_details.
Hypothesis P_update_last_failure_time :
  preserves P update_last_failure_time.

Lemma preserves_set_circuit_breaker_state (state : CircuitState) :
  preserves P (set_circuit_breaker_state state).
Proof.
  unfold set_circuit_breaker_state.
  apply preserves_bind; [apply preserves_storage|]. intros st. cbv zeta.
  apply preserves_bind; [|intros; apply preserves_notify].
  apply preserves_assign. apply P_circuit_state.
Qed.

Lemma preserves_reset_half_open_state_calls_counter :
  preserves P reset_half_open_state_calls_counter.
Proof. apply preserves_assign. apply (P_counter (fun _ => 0)). Qed.

Lemma preserves_increment_half_open_state_success_calls :
  preserves P increment_half_open_state_success_calls.
Proof.
  apply preserves_assign.
  apply (P_counter (fun st => half_open_state_total_calls st + 1)).
Qed.

Lemma preserves_reset_calls : preserves P reset_calls.
Proof. apply preserves_assign. apply P_reset_calls. Qed.

Lemma preserves_Base_on_success : preserves P Base.on_success.
Proof.
  unfold Base.on_success.
  apply preserves_bind; [apply P_add_call_detail|intros; apply preserves_notify].
Qed.

Lemma preserves_Open_before_call : preserves P (before_call CircuitOpenState).
Proof.
  cbn [before_call CircuitOpenState].
  apply preserves_bind; [apply preserves_check_if_open_state_duration_elapsed|].
  intros [|]; [apply preserves_set_circuit_breaker_state|apply preserves_raise].
Qed.

Lemma preserves_HalfOpen_on_success : preserves P (on_success CircuitHalfOpenState).
Proof.
  cbn [on_success CircuitHalfOpenState].
  apply preserves_bind; [apply preserves_increment_half_open_state_success_calls|].
  intros _.
  apply preserves_bind; [apply preserves_check_half_open_call_success|].
  intros [|]; [|apply preserves_ret].
  apply preserves_bind; [apply preserves_set_circuit_breaker_state|]. intros _.
  apply preserves_bind; [apply preserves_reset_calls|]. intros _.
  apply preserves_reset_half_open_state_calls_counter.
Qed.

Lemma preserves_HalfOpen_on_failure (exc : Exn) :
  preserves P (on_failure CircuitHalfOpenState exc).
Proof.
  cbn [on_failure CircuitHalfOpenState].
  apply preserves_bind; [apply preserves_set_circuit_breaker_state|]. intros _.
  apply preserves_bind; [apply P_update_last_failure_time|]. intros _.
  apply preserves_reset_half_open_state_calls_counter.
Qed.

Lemma preserves_Close_on_failure (exc : Exn) :
  preserves P (on_failure CircuitCloseState exc).
Proof.
  cbn [on_failure CircuitCloseState].
  apply preserves_bind; [apply P_add_call_detail|]. intros _.
  apply preserves_bind; [apply P_update_last_failure_time|]. intros _.
  apply preserves_bind; [apply preserves_check_if_max_fails_reached|]. intros tripped.
  apply preserves_bind; [|intros _; apply preserves_notify].
  destruct tripped; [apply preserves_set_circuit_breaker_state|apply preserves_ret].
Qed.

Lemma preserves_before_call (state : CircuitState) :
  preserves P (before_call (handler_class state)).
Proof.
  destruct state; [apply preserves_Open_before_call| |]; apply preserves_ret.
Qed.

Lemma preserves_on_success (state : CircuitState) :
  preserves P (on_success (handler_class state)).
Proof.
  destruct state;
    [apply preserves_Base_on_success|apply preserves_Base_on_success|
     apply preserves_HalfOpen_on_success].
Qed.

Lemma preserves_on_failure (state : CircuitState) (exc : Exn) :
  preserves P (on_failure (handler_class state) exc).
Proof.
  destruct state;
    [apply preserves_ret|apply preserves_Close_on_failure|
     apply preserves_HalfOpen_on_failure].
Qed.

Lemma preserves_handle_before_call : preserves P handle_before_call.
Proof. intros s H. apply (preserves_before_call (state_of s) s H). Qed.

Lemma preserves_handle_success : preserves P handle_success.
Proof. intros s H. apply (preserves_on_success (state_of s) s H). Qed.

Lemma preserves_handle_failure (exc : Exn) : preserves P (handle_failure exc).
Proof. intros s H. apply (preserves_on_failure (state_of s) exc s H). Qed.

Lemma preserves_wrapper {V : Type} (func : Work V) : preserves P (wrapper func).
Proof.
  unfold wrapper.
  apply preserves_bind; [apply preserves_handle_before_call|]. intros _.
  apply preserves_try_except.
  - cbv zeta.
    apply preserves_bind; [apply preserves_run|]. intros result.
    apply preserves_bind; [apply preserves_check_if_execution_time_breached|].
    intros _.
    apply preserves_bind; [apply preserves_handle_success|]. intros _.
    apply preserves_ret.
  - intros cbe.
    apply preserves_bind; [apply preserves_handle_failure|]. intros _.
    apply preserves_raise.
Qed.

Lemma preserves_discard {A : Type} (m : Py A) :
  preserves P m -> preserves P (discard m).
Proof. intros H. apply preserves_bind; [exact H|intros; apply preserves_ret]. Qed.

Lemma preserves_invoke {V : Type} (m : Method V) : preserves P (invoke m).
Proof.
  destruct m; cbn [invoke];
    auto using preserves_reset_calls, preserves_set_circuit_breaker_state,
      preserves_check_if_execution_time_breached,
      preserves_increment_half_open_state_success_calls,
      preserves_reset_half_open_state_calls_counter,
      preserves_handle_before_call, preserves_handle_success,
      preserves_handle_failure, preserves_discard,
      preserves_check_if_max_fails_reached,
      preserves_check_if_open_state_duration_elapsed,
      preserves_check_half_open_call_success, preserves_wrapper.
  - apply preserves_assign, P_circuit_state.
  - apply preserves_assign, P_circuit_state.
  - apply preserves_assign, P_circuit_state.
  - apply preserves_assign, P_circuit_state.
Qed.

Lemma preserves_invoke_all {V : Type} (ms : list (Method V)) (s : Sys) :
  P (cb s) -> P (cb (invoke_all ms s)).
Proof.
  revert s. induction ms as [|m ms IH]; intros s H; [exact H|].
  cbn [invoke_all fold_left]. apply IH. apply (preserves_invoke m s H).
Qed.

End Preservation.

(** * The outcome window *)

Module Window.

Lemma gtb_false (a b : Z) : a <= b -> (a >? b) = false.
Proof. intros H. rewrite Z.gtb_ltb. apply Z.ltb_ge. exact H. Qed.

Lemma gtb_true (a b : Z) : b < a -> (a >? b) = true.
Proof. intros H. rewrite Z.gtb_ltb. apply Z.ltb_lt. exact H. Qed.

(** With a window size that is not negative the loop of
    [update_total_calls_details] drops the oldest records down to the
    size and [popleft] never meets an empty deque. *)
Lemma popleft_while_evicted (size : Z) (q : list CallDetail) :
  0 <= size -> popleft_while size q = (evicted size q, false).
Proof.
  intros Hs. unfold evicted. induction q as [|c q IH].
  - cbn. now rewrite gtb_false.
  - cbn [popleft_while].
    destruct (Z.of_nat (List.length (c :: q)) >? size) eqn:E;
      rewrite Z.gtb_ltb in E.
    + apply Z.ltb_lt in E. rewrite IH. cbn [List.length] in *.
      replace (S (List.length q) - Z.to_nat size)%nat
        with (S (List.length q - Z.to_nat size)) by lia.
      reflexivity.
    + apply Z.ltb_ge in E.
      replace (List.length (c :: q) - Z.to_nat size)%nat with 0%nat by lia.
      reflexivity.
Qed.

(** With a negative window size the loop empties the deque and then pops
    from the empty deque. *)
Lemma popleft_while_negative (size : Z) (q : list CallDetail) :
  size < 0 -> popleft_while size q = ([], true).
Proof.
  intros Hs. induction q as [|c q IH].
  - cbn. now rewrite gtb_true.
  - cbn [popleft_while]. rewrite gtb_true by lia. exact IH.
Qed.

Lemma evicted_length (size : Z) (q : list CallDetail) :
  0 <= size ->
  List.length (evicted size q) = Nat.min (List.length q) (Z.to_nat size).
Proof. intros Hs. unfold evicted. rewrite length_skipn. lia. Qed.

Lemma evicted_bounded (size : Z) (q : list CallDetail) :
  0 <= size -> Z.of_nat (List.length (evicted size q)) <= size.
Proof. intros Hs. rewrite evicted_length by exact Hs. lia. Qed.

Lemma evicted_fits (size : Z) (q : list CallDetail) :
  Z.of_nat (List.length q) <= size -> evicted size q = q.
Proof.
  intros H. unfold evicted.
  replace (List.length q - Z.to_nat size)%nat with 0%nat by lia. reflexivity.
Qed.

(** [add_call_detail] is an append followed by the eviction. *)
Lemma add_call_detail_recorded (status : bool) (s : Sys) :
  0 <= window_size_of s ->
  add_call_detail status s =
  ({| env := {| utc_clock := utc_clock (env s);
                utc_reads := S (utc_reads (env s));
                work_runs := work_runs (env s);
                notified := notified (env s) |};
      cb := recorded status (reading s 0) (cb s) |}, Returned tt).
Proof.
  py_obs. intros HW. py_unfold. cbn.
  rewrite popleft_while_evicted by exact HW. cbn.
  unfold reading. rewrite Nat.add_0_r. reflexivity.
Qed.

(** With a negative window size [add_call_detail] raises [IndexError]. *)
Lemma add_call_detail_negative (status : bool) (s : Sys) :
  window_size_of s < 0 ->
  result_of (add_call_detail status) s = Raised IndexError.
Proof.
  py_obs. intros HW. py_unfold. cbn.
  rewrite popleft_while_negative by exact HW. reflexivity.
Qed.

Section Bound.

Variable size : Z.
Hypothesis size_nonneg : 0 <= size.

Lemma bounded_circuit_state (state : CircuitState) (b : CircuitBreaker) :
  bounded_by size b -> bounded_by size (set_storage (set_circuit_state state) b).
Proof. intros H. exact H. Qed.

Lemma bounded_counter (f : CircuitStorage -> Z) (b : CircuitBreaker) :
  bounded_by size b ->
  bounded_by size (set_storage (fun st => set_half_open_state_total_calls (f st) st) b).
Proof. intros H. exact H. Qed.

Lemma bounded_reset_calls (b : CircuitBreaker) :
  bounded_by size b -> bounded_by size (set_storage (set_total_calls []) b).
Proof. intros [H _]. split; [exact H|cbn; lia]. Qed.

Lemma bounded_add_call_detail (status : bool) :
  preserves (bounded_by size) (add_call_detail status).
Proof.
  intros s [HW _]. unfold after.
  rewrite add_call_detail_recorded by (unfold window_size_of, storage_of; lia).
  cbn [fst cb]. split; [exact HW|]. cbn. rewrite HW.
  apply evicted_bounded, size_nonneg.
Qed.

Lemma bounded_update_total_calls_details :
  preserves (bounded_by size) update_total_calls_details.
Proof.
  intros s [HW Hlen]. py_unfold. cbn.
  rewrite popleft_while_evicted by lia. cbn.
  split; [exact HW|]. cbn. rewrite HW. apply evicted_bounded, size_nonneg.
Qed.

Lemma bounded_update_last_failure_time :
  preserves (bounded_by size) update_last_failure_time.
Proof. intros s H. exact H. Qed.

Lemma bounded_invoke_all {V : Type} (ms : list (Method V)) (s : Sys) :
  bounded_by size (cb s) -> bounded_by size (cb (invoke_all ms s)).
Proof.
  apply preserves_invoke_all;
    auto using bounded_circuit_state, bounded_counter, bounded_reset_calls,
      bounded_add_call_detail, bounded_update_total_calls_details,
      bounded_update_last_failure_time.
Qed.

End Bound.

(** C6. With a window size that is not negative, [add_call_detail] appends
    the new record and evicts the oldest records from the front until the
    window fits the size, and no sequence of breaker operations, protected
    calls included, takes a window that fits its size to one that does
    not. *)
Theorem window_never_exceeds_its_size :
  forall (V : Type) (s : Sys),
    0 <= window_size_of s ->
    (forall status : bool,
        window_of (after (add_call_detail status) s)
        = evicted (window_size_of s)
                  (window_of s ++ [mkCallDetail status (reading s 0)])
        /\ window_bounded (after (add_call_detail status) s))
    /\ (window_bounded s ->
        forall ms : list (Method V),
          window_bounded (invoke_all ms s)
          /\ window_size_of (invoke_all ms s) = window_size_of s).
Proof.
  intros V s HW. split.
  - intros status. unfold after.
    rewrite add_call_detail_recorded by exact HW. cbn [fst].
    split; [reflexivity|].
    unfold window_bounded, window_of, window_size_of, storage_of. cbn.
    apply evicted_bounded. exact HW.
  - intros Hb ms.
    destruct (bounded_invoke_all (window_size_of s) HW ms s) as [H1 H2].
    + split; [reflexivity|exact Hb].
    + unfold window_bounded, window_of, window_size_of, storage_of in *.
      rewrite H1. split; [exact H2|reflexivity].
Qed.

(** The demonstration breaker (window size 10) after twelve protected calls
    and a forced state change. *)
Lemma window_never_exceeds_its_size_witness :
  let s := fresh (Scenario.world Scenario.steady_clock) Scenario.demo_breaker in
  let ms := [m_call Scenario.S_; m_call Scenario.S_; m_call Scenario.S_;
             m_call Scenario.S_; m_call Scenario.S_; m_call Scenario.S_;
             m_call Scenario.F_; m_call Scenario.S_; m_call Scenario.F_;
             m_call Scenario.S_; m_call Scenario.S_; m_call Scenario.F_;
             m_set_circuit_breaker_state HALF_OPEN_STATE; m_handle_success] in
  0 <= window_size_of s
  /\ window_bounded s
  /\ window_bounded (invoke_all ms s).
Proof.
  intros s ms.
  assert (HW : 0 <= window_size_of s) by (vm_compute; discriminate).
  assert (Hb : window_bounded s) by (vm_compute; discriminate).
  split; [exact HW|]. split; [exact Hb|].
  apply (proj2 (window_never_exceeds_its_size Z s HW) Hb ms).
Defined.

End Window.

(** * The cool-down of the open state *)

Module CoolDown.

(** The seconds component of a timedelta that is not negative is at most
    its total duration. *)
Lemma timedelta_seconds_le_total (us : Z) :
  0 <= us -> (inject_Z (timedelta_seconds us) <= timedelta_total_seconds us)%Q.
Proof.
  intros H. unfold timedelta_seconds, timedelta_total_seconds,
    SECONDS_PER_DAY, MICROSECONDS_PER_SECOND.
  unfold Qle, Qdiv, Qmult, Qinv, inject_Z. cbn.
  pose proof (Z.mod_le us 86400000000 H ltac:(lia)).
  pose proof (Z.mul_div_le (us mod 86400000000) 1000000 ltac:(lia)).
  lia.
Qed.

Lemma cooling_down_not_elapsed (b : CircuitBreaker) (now t : Z) :
  last_failure_time b = Some t ->
  cooling_down b now ->
  Qle_bool (open_state_duration (_storage_state b))
           (inject_Z (timedelta_seconds (now - t))) = false.
Proof.
  intros Hlft (t' & Hlft' & Hpos & Hlt).
  rewrite Hlft in Hlft'. injection Hlft' as <-.
  destruct (Qle_bool _ _) eqn:E; [|reflexivity].
  apply Qle_bool_iff in E.
  pose proof (timedelta_seconds_le_total (now - t) Hpos) as Hle.
  exfalso. apply (Qlt_irrefl (open_state_duration (_storage_state b))).
  eapply Qle_lt_trans; [exact E|]. eapply Qle_lt_trans; [exact Hle|exact Hlt].
Qed.

(** One call made while the breaker is open and cooling down. *)
Lemma rejected_while_cooling_down {V : Type} (func : Work V) (s : Sys) :
  state_of s = OPEN_STATE ->
  cooling_down (cb s) (reading s 0) ->
  wrapper func s =
  ({| env := {| utc_clock := utc_clock (env s);
                utc_reads := S (utc_reads (env s));
                work_runs := work_runs (env s);
                notified := notified (env s) |};
      cb := cb s |}, Raised CircuitOpenException).
Proof.
  intros Hst Hcool.
  destruct Hcool as (t & Hlft & Hrest).
  pose proof (cooling_down_not_elapsed (cb s) (reading s 0) t Hlft
                (ex_intro _ t (conj Hlft Hrest))) as Hne.
  unfold reading in Hne. rewrite Nat.add_0_r in Hne.
  py_obs. py_unfold. cbn. rewrite Hst. cbn. rewrite Hlft. cbn. rewrite Hne.
  reflexivity.
Qed.

(** When the elapsed-duration check answers yes, the open breaker lets the
    call through and is half-open when the work runs. *)
Lemma admitted_when_check_passes (s : Sys) (t : Z) :
  state_of s = OPEN_STATE ->
  last_failure_time (cb s) = Some t ->
  Qle_bool (open_state_duration (storage_of s))
           (inject_Z (timedelta_seconds (reading s 0 - t))) = true ->
  result_of handle_before_call s = Returned tt
  /\ state_of (after handle_before_call s) = HALF_OPEN_STATE.
Proof.
  unfold reading. rewrite Nat.add_0_r. py_obs. intros Hst Hlft Hel.
  py_unfold. cbn. rewrite Hst. cbn. rewrite Hlft. cbn. rewrite Hel. cbn.
  split; reflexivity.
Qed.

(** C5. Calls made one after the other while the breaker is open and
    cooling down are each rejected with [CircuitOpenException]; after
    them the breaker object (outcome window, half-open counter, state tag,
    last failure time, configuration) is the one before them, no work was
    run and no listener was notified. *)
Theorem rejected_calls_leave_breaker_unchanged :
  forall (V : Type) (funcs : list (Work V)) (s : Sys),
    state_of s = OPEN_STATE ->
    (forall k : nat, (k < List.length funcs)%nat -> cooling_down (cb s) (reading s k)) ->
    cb (fst (wrapper_all funcs s)) = cb s
    /\ snd (wrapper_all funcs s)
       = map (fun _ => Raised CircuitOpenException) funcs
    /\ work_runs (env (fst (wrapper_all funcs s))) = work_runs (env s)
    /\ notified (env (fst (wrapper_all funcs s))) = notified (env s).
Proof.
  intros V funcs. induction funcs as [|func rest IH]; intros s Hst Hcool.
  - cbn. auto.
  - cbn [wrapper_all].
    rewrite (rejected_while_cooling_down func s Hst (Hcool 0%nat ltac:(cbn; lia))).
    set (s1 := {| env := _; cb := cb s |}).
    destruct (IH s1) as (Hcb & Hrs & Hruns & Hnot).
    + exact Hst.
    + intros k Hk. cbn [cb s1].
      replace (reading s1 k) with (reading s (S k)).
      * apply Hcool. cbn. lia.
      * unfold reading. cbn. f_equal. lia.
    + destruct (wrapper_all rest s1) as [s2 rs]. cbn [fst snd] in *.
      rewrite Hcb, Hrs, Hruns, Hnot. cbn. auto.
Qed.

(** Three calls in the ten seconds after the default breaker tripped. *)
Lemma rejected_calls_leave_breaker_unchanged_witness :
  let s := Scenario.tripped 3000000 in
  let funcs := [Scenario.S_; Scenario.F_; Scenario.S_] in
  state_of s = OPEN_STATE
  /\ cb (fst (wrapper_all funcs s)) = cb s
  /\ snd (wrapper_all funcs s) = map (fun _ => Raised CircuitOpenException) funcs.
Proof.
  intros s funcs.
  assert (Hst : state_of s = OPEN_STATE) by reflexivity.
  assert (Hcool : forall k : nat, (k < List.length funcs)%nat ->
                                  cooling_down (cb s) (reading s k)).
  { intros k Hk. exists 0. split; [reflexivity|].
    assert (Hr : reading s k = 3000000) by (unfold reading; reflexivity).
    rewrite Hr. split; [lia|reflexivity]. }
  destruct (rejected_calls_leave_breaker_unchanged Z funcs s Hst Hcool)
    as (Hcb & Hrs & _).
  split; [exact Hst|]. split; [exact Hcb|exact Hrs].
Defined.

(** C2, at the failing input. The default breaker (open-state duration 10
    seconds) tripped at time 0; a call is made one day and three seconds
    later. More than the duration has gone by since the last failure, yet
    the elapsed-duration check, which reads only the seconds component of
    the elapsed time (3), answers no: the call is rejected with
    [CircuitOpenException], the work is not run and the breaker stays
    open. *)
Theorem elapsed_cool_down_is_rejected_after_a_day :
  let s := Scenario.tripped 86403000000 in
  state_of s = OPEN_STATE
  /\ last_failure_time (cb s) = Some 0
  /\ reading s 0 = 86403000000
  /\ (open_state_duration (storage_of s)
      <= timedelta_total_seconds (reading s 0 - 0))%Q
  /\ timedelta_seconds (reading s 0 - 0) = 3
  /\ result_of (wrapper Scenario.S_) s = Raised CircuitOpenException
  /\ state_of (after (wrapper Scenario.S_) s) = OPEN_STATE
  /\ work_runs (env (after (wrapper Scenario.S_) s)) = work_runs (env s).
Proof.
  cbv zeta.
  split; [vm_compute; reflexivity|].
  split; [vm_compute; reflexivity|].
  split; [vm_compute; reflexivity|].
  split; [apply Qle_bool_iff; vm_compute; reflexivity|].
  split; [vm_compute; reflexivity|].
  split; [vm_compute; reflexivity|].
  split; vm_compute; reflexivity.
Qed.

End CoolDown.

(** * Dispatch and the shape of a protected call *)

Module Dispatch.

Lemma handle_before_call_eq (s : Sys) :
  handle_before_call s = before_call (handler_class (state_of s)) s.
Proof. reflexivity. Qed.

Lemma handle_success_eq (s : Sys) :
  handle_success s = on_success (handler_class (state_of s)) s.
Proof. reflexivity. Qed.

Lemma handle_failure_eq (exc : Exn) (s : Sys) :
  handle_failure exc s = on_failure (handler_class (state_of s)) exc s.
Proof. reflexivity. Qed.

(** An exception ends the sequence it is raised in. *)
Lemma bind_stops {A B : Type} (m : Py A) (k : A -> Py B) (s : Sys) (e : Exn) :
  result_of m s = Raised e -> bind m k s = (after m s, Raised e).
Proof.
  unfold result_of, after, bind.
  destruct (m s) as [s1 [a|e1]]; cbn; intros H; congruence.
Qed.

(** Outside the open state the permission is always given. *)
Lemma handle_before_call_not_open (s : Sys) :
  state_of s <> OPEN_STATE -> handle_before_call s = (s, Returned tt).
Proof.
  intros H. rewrite handle_before_call_eq.
  destruct (state_of s); [congruence| |]; reflexivity.
Qed.

(** A call that got the permission: the work is executed, then its
    outcome is dispatched. *)
Lemma wrapper_admitted {V : Type} (func : Work V) (s s1 : Sys) :
  handle_before_call s = (s1, Returned tt) ->
  wrapper func s =
  match outcome func with
  | Returned v =>
      if breached (storage_of s1) func
      then (handle_failure CircuitExecutionTimeBreachedException ;;
            raise CircuitExecutionTimeBreachedException) (executed s1)
      else try_except (handle_success ;; ret v)
                      (fun cbe => handle_failure cbe ;; raise cbe) (executed s1)
  | Raised e => (handle_failure e ;; raise e) (executed s1)
  end.
Proof.
  intros H. unfold wrapper. unfold bind at 1. rewrite H.
  unfold try_except, run, check_if_execution_time_breached, storage, breached,
    storage_of, executed, bind, ret, raise.
  cbn [cb env]. destruct (outcome func) as [v|e]; [|reflexivity].
  destruct (slow_call_duration _) as [d|]; [destruct (Qle_bool _ _)|]; reflexivity.
Qed.

Lemma succeeds_true {V : Type} (st : CircuitStorage) (func : Work V) :
  succeeds st func = true ->
  exists v, outcome func = Returned v /\ breached st func = false.
Proof.
  unfold succeeds. destruct (outcome func) as [v|e]; [|discriminate].
  intros H. exists v. split; [reflexivity|]. now apply negb_true_iff.
Qed.

(** A call that got the permission and does not succeed: its failure
    cause is handed to [handle_failure] and raised to the caller. *)
Lemma wrapper_admitted_failure {V : Type} (func : Work V) (s s1 : Sys) :
  handle_before_call s = (s1, Returned tt) ->
  succeeds (storage_of s1) func = false ->
  wrapper func s =
  (handle_failure (failure_cause func) ;; raise (failure_cause func)) (executed s1).
Proof.
  intros H Hf. rewrite (wrapper_admitted func s s1 H).
  unfold succeeds in Hf. unfold failure_cause.
  destruct (outcome func) as [v|e]; [|reflexivity].
  apply negb_false_iff in Hf. rewrite Hf. reflexivity.
Qed.

Lemma succeeds_same_duration {V : Type} (st st' : CircuitStorage) (func : Work V) :
  slow_call_duration st = slow_call_duration st' ->
  succeeds st func = succeeds st' func.
Proof. intros H. unfold succeeds, breached. now rewrite H. Qed.

End Dispatch.

(** * The half-open state *)

Module HalfOpen.

Import Dispatch.

Lemma handle_success_half_open (s : Sys) :
  state_of s = HALF_OPEN_STATE ->
  exists w : World,
    handle_success s = ({| env := w; cb := half_open_succeeded (cb s) |}, Returned tt)
    /\ utc_clock w = utc_clock (env s)
    /\ utc_reads w = utc_reads (env s)
    /\ work_runs w = work_runs (env s).
Proof.
  intros Hst. rewrite handle_success_eq, Hst.
  cbn [handler_class on_success CircuitHalfOpenState].
  py_unfold. cbn. unfold half_open_succeeded.
  destruct (_ >=? _); eexists; (split; [reflexivity|]); cbn; auto.
Qed.

Lemma handle_failure_half_open (exc : Exn) (s : Sys) :
  state_of s = HALF_OPEN_STATE ->
  exists w : World,
    handle_failure exc s
    = ({| env := w; cb := half_open_failed (reading s 0) (cb s) |}, Returned tt)
    /\ work_runs w = work_runs (env s).
Proof.
  intros Hst. rewrite handle_failure_eq, Hst.
  cbn [handler_class on_failure CircuitHalfOpenState].
  py_unfold. cbn. unfold reading. rewrite Nat.add_0_r.
  eexists. split; reflexivity.
Qed.

(** A successful trial call. *)
Lemma wrapper_half_open_success {V : Type} (func : Work V) (s : Sys) :
  state_of s = HALF_OPEN_STATE ->
  succeeds (storage_of s) func = true ->
  exists w : World,
    wrapper func s = ({| env := w; cb := half_open_succeeded (cb s) |}, outcome func)
    /\ utc_clock w = utc_clock (env s)
    /\ utc_reads w = utc_reads (env s)
    /\ work_runs w = S (work_runs (env s)).
Proof.
  intros Hst Hok.
  rewrite (wrapper_admitted func s s)
    by (apply handle_before_call_not_open; congruence).
  destruct (succeeds_true _ _ Hok) as (v & Hv & Hb). rewrite Hv, Hb.
  destruct (handle_success_half_open (executed s) Hst) as (w & Hw & H1 & H2 & H3).
  unfold try_except, bind, ret. rewrite Hw.
  exists w. cbn in *. auto.
Qed.

(** A failed trial call. *)
Lemma wrapper_half_open_failure {V : Type} (func : Work V) (s : Sys) :
  state_of s = HALF_OPEN_STATE ->
  succeeds (storage_of s) func = false ->
  exists w : World,
    wrapper func s
    = ({| env := w; cb := half_open_failed (reading s 0) (cb s) |},
       Raised (failure_cause func))
    /\ work_runs w = S (work_runs (env s)).
Proof.
  intros Hst Hko.
  rewrite (wrapper_admitted_failure func s s)
    by (first [apply handle_before_call_not_open; congruence | exact Hko]).
  destruct (handle_failure_half_open (failure_cause func) (executed s) Hst)
    as (w & Hw & H1).
  unfold bind, raise. rewrite Hw. exists w. cbn in *. auto.
Qed.

Lemma counter_unchanged (b : CircuitBreaker) :
  set_storage
    (fun st => set_half_open_state_total_calls
                 (half_open_state_total_calls (_storage_state b) + 0) st) b = b.
Proof. destruct b as [lft ls []]. cbn. now rewrite Z.add_0_r. Qed.

(** Fewer successes than the threshold asks for: only the counter moves. *)
Lemma successes_below_threshold {V : Type} (funcs : list (Work V)) :
  forall s : Sys,
    state_of s = HALF_OPEN_STATE ->
    Forall (fun func => succeeds (storage_of s) func = true) funcs ->
    counter_of s + Z.of_nat (List.length funcs) < threshold_of s ->
    cb (fst (wrapper_all funcs s))
    = set_storage
        (fun st => set_half_open_state_total_calls
                     (counter_of s + Z.of_nat (List.length funcs)) st) (cb s)
    /\ snd (wrapper_all funcs s) = map outcome funcs.
Proof.
  induction funcs as [|func rest IH]; intros s Hst Hall Hlt.
  - cbn. split; [|reflexivity]. symmetry. apply counter_unchanged.
  - inversion Hall as [|? ? Hok Hrest]; subst.
    cbn [wrapper_all].
    destruct (wrapper_half_open_success func s Hst Hok) as (w & Hw & _).
    rewrite Hw. set (s1 := {| env := w; cb := half_open_succeeded (cb s) |}).
    assert (Hb : cb s1 = set_storage
                   (fun st => set_half_open_state_total_calls
                                (counter_of s + 1) st) (cb s)).
    { cbn. unfold half_open_succeeded.
      unfold counter_of, threshold_of, storage_of in *. cbn [List.length] in Hlt.
      destruct (_ >=? _) eqn:E; [|reflexivity].
      rewrite Z.geb_leb in E. apply Z.leb_le in E. lia. }
    destruct (IH s1) as (IH1 & IH2).
    + unfold state_of, storage_of. rewrite Hb. exact Hst.
    + eapply Forall_impl; [|exact Hrest]. intros f Hf. cbn beta in *.
      rewrite <- Hf. apply succeeds_same_duration.
      unfold storage_of. rewrite Hb. reflexivity.
    + unfold counter_of, threshold_of, storage_of in *. rewrite Hb. cbn.
      cbn [List.length] in Hlt. lia.
    + destruct (wrapper_all rest s1) as [s2 rs]. cbn [fst snd] in *.
      split; [|now rewrite IH2].
      assert (Hc : counter_of s1 = counter_of s + 1)
        by (unfold counter_of, storage_of; rewrite Hb; reflexivity).
      rewrite IH1, Hc, Hb.
      replace (counter_of s + 1 + Z.of_nat (List.length rest))
        with (counter_of s + Z.of_nat (List.length (func :: rest)))
        by (cbn [List.length]; lia).
      reflexivity.
Qed.

(** As many successes as the threshold asks for: the circuit closes. *)
Lemma successes_reach_threshold {V : Type} (funcs : list (Work V)) :
  forall s : Sys,
    state_of s = HALF_OPEN_STATE ->
    Forall (fun func => succeeds (storage_of s) func = true) funcs ->
    funcs <> [] ->
    counter_of s + Z.of_nat (List.length funcs) = threshold_of s ->
    cb (fst (wrapper_all funcs s))
    = set_storage
        (fun st => set_half_open_state_total_calls 0
                     (set_total_calls [] (set_circuit_state CLOSED_STATE st)))
        (cb s).
Proof.
  induction funcs as [|func rest IH]; intros s Hst Hall Hne Heq; [congruence|].
  inversion Hall as [|? ? Hok Hrest]; subst.
  cbn [wrapper_all].
  destruct (wrapper_half_open_success func s Hst Hok) as (w & Hw & _).
  rewrite Hw. set (s1 := {| env := w; cb := half_open_succeeded (cb s) |}).
  destruct rest as [|func' rest].
  - cbn. unfold half_open_succeeded.
    unfold counter_of, threshold_of, storage_of in *. cbn in Heq.
    destruct (_ >=? _) eqn:E; [reflexivity|].
    rewrite Z.geb_leb in E. apply Z.leb_gt in E. lia.
  - assert (Hb : cb s1 = set_storage
                   (fun st => set_half_open_state_total_calls
                                (counter_of s + 1) st) (cb s)).
    { cbn. unfold half_open_succeeded.
      unfold counter_of, threshold_of, storage_of in *. cbn [List.length] in Heq.
      destruct (_ >=? _) eqn:E; [|reflexivity].
      rewrite Z.geb_leb in E. apply Z.leb_le in E. lia. }
    specialize (IH s1).
    destruct (wrapper_all (func' :: rest) s1) as [s2 rs]. cbn [fst] in *.
    rewrite IH.
    + rewrite Hb. reflexivity.
    + unfold state_of, storage_of. rewrite Hb. exact Hst.
    + eapply Forall_impl; [|exact Hrest]. intros f Hf. cbn beta in *.
      rewrite <- Hf. apply succeeds_same_duration.
      unfold storage_of. rewrite Hb. reflexivity.
    + discriminate.
    + unfold counter_of, threshold_of, storage_of in *. rewrite Hb. cbn.
      cbn [List.length] in Heq. lia.
Qed.

(** C4. In the half-open state a call that fails, whatever the counter of
    successes says, leaves the breaker open with the counter at zero and
    the last failure time set to the reading of the clock taken then.
    From the start of a trial batch (counter at zero, threshold at least
    one), successful calls fewer than the threshold leave the breaker
    half-open, counting them and keeping the window, and a failure after
    them opens the circuit in the same way; successful calls as many as the
    threshold leave the breaker closed with an empty window and the counter
    at zero. *)
Theorem half_open_trial_batch :
  forall (V : Type) (s : Sys),
    state_of s = HALF_OPEN_STATE ->
    (forall func : Work V,
        succeeds (storage_of s) func = false ->
        state_of (after (wrapper func) s) = OPEN_STATE
        /\ last_failure_time (cb (after (wrapper func) s)) = Some (reading s 0)
        /\ counter_of (after (wrapper func) s) = 0
        /\ result_of (wrapper func) s = Raised (failure_cause func))
    /\ (counter_of s = 0 ->
        1 <= threshold_of s ->
        forall funcs : list (Work V),
          Forall (fun func => succeeds (storage_of s) func = true) funcs ->
          (Z.of_nat (List.length funcs) < threshold_of s ->
           state_of (fst (wrapper_all funcs s)) = HALF_OPEN_STATE
           /\ counter_of (fst (wrapper_all funcs s)) = Z.of_nat (List.length funcs)
           /\ window_of (fst (wrapper_all funcs s)) = window_of s
           /\ (forall func : Work V,
                 succeeds (storage_of s) func = false ->
                 state_of (after (wrapper func) (fst (wrapper_all funcs s))) = OPEN_STATE
                 /\ last_failure_time
                      (cb (after (wrapper func) (fst (wrapper_all funcs s))))
                    = Some (reading (fst (wrapper_all funcs s)) 0)
                 /\ counter_of (after (wrapper func) (fst (wrapper_all funcs s))) = 0))
          /\ (Z.of_nat (List.length funcs) = threshold_of s ->
              state_of (fst (wrapper_all funcs s)) = CLOSED_STATE
              /\ window_of (fst (wrapper_all funcs s)) = []
              /\ counter_of (fst (wrapper_all funcs s)) = 0)).
Proof.
  intros V s Hst.
  assert (Hfail : forall (s0 : Sys) (func : Work V),
             state_of s0 = HALF_OPEN_STATE ->
             succeeds (storage_of s0) func = false ->
             state_of (after (wrapper func) s0) = OPEN_STATE
             /\ last_failure_time (cb (after (wrapper func) s0)) = Some (reading s0 0)
             /\ counter_of (after (wrapper func) s0) = 0
             /\ result_of (wrapper func) s0 = Raised (failure_cause func)).
  { intros s0 func Hst0 Hko.
    destruct (wrapper_half_open_failure func s0 Hst0 Hko) as (w & Hw & _).
    unfold after, result_of. rewrite Hw. cbn. repeat split. }
  split; [intros func; apply Hfail; exact Hst|].
  intros Hc HT funcs Hall. split.
  - intros Hlt.
    destruct (successes_below_threshold funcs s Hst Hall) as (Hcb & _);
      [rewrite Hc; lia|].
    set (s' := fst (wrapper_all funcs s)) in *.
    assert (Hst' : state_of s' = HALF_OPEN_STATE)
      by (unfold state_of, storage_of; rewrite Hcb; exact Hst).
    split; [exact Hst'|].
    split; [unfold counter_of at 1, storage_of; rewrite Hcb; cbn;
            rewrite Hc; reflexivity|].
    split; [unfold window_of, storage_of; rewrite Hcb; reflexivity|].
    intros func Hko.
    destruct (Hfail s' func Hst') as (H1 & H2 & H3 & _); [|auto].
    rewrite <- Hko. apply succeeds_same_duration.
    unfold storage_of. rewrite Hcb. reflexivity.
  - intros Heq.
    assert (Hne : funcs <> []) by (intros ->; cbn in Heq; lia).
    pose proof (successes_reach_threshold funcs s Hst Hall Hne) as Hcb.
    rewrite Hc in Hcb. specialize (Hcb Heq).
    unfold state_of, window_of, counter_of, storage_of. rewrite Hcb.
    repeat split.
Qed.

(** A batch of three trial calls: two successes keep the breaker
    half-open, a failure after them opens it, three successes close it. *)
Lemma half_open_trial_batch_witness :
  let s := Scenario.half_open_three_trials in
  state_of s = HALF_OPEN_STATE
  /\ state_of (after (wrapper Scenario.F_) s) = OPEN_STATE
  /\ state_of (fst (wrapper_all [Scenario.S_; Scenario.S_] s)) = HALF_OPEN_STATE
  /\ state_of (after (wrapper Scenario.slow_raise)
                     (fst (wrapper_all [Scenario.S_; Scenario.S_] s))) = OPEN_STATE
  /\ state_of (fst (wrapper_all [Scenario.S_; Scenario.S_; Scenario.S_] s)) = CLOSED_STATE
  /\ window_of (fst (wrapper_all [Scenario.S_; Scenario.S_; Scenario.S_] s)) = [].
Proof.
  intros s.
  assert (Hst : state_of s = HALF_OPEN_STATE) by reflexivity.
  destruct (half_open_trial_batch Z s Hst) as (Hfail & Hbatch).
  assert (Hc : counter_of s = 0) by reflexivity.
  assert (HT : 1 <= threshold_of s) by (vm_compute; discriminate).
  split; [exact Hst|].
  split; [apply (Hfail Scenario.F_); reflexivity|].
  destruct (Hbatch Hc HT [Scenario.S_; Scenario.S_]) as (Hbelow & _);
    [repeat constructor|].
  destruct Hbelow as (H1 & _ & _ & H4); [vm_compute; reflexivity|].
  split; [exact H1|].
  split; [apply (H4 Scenario.slow_raise); reflexivity|].
  destruct (Hbatch Hc HT [Scenario.S_; Scenario.S_; Scenario.S_]) as (_ & Hclose);
    [repeat constructor|].
  destruct Hclose as (H5 & H6 & _); [reflexivity|].
  split; [exact H5|exact H6].
Defined.

End HalfOpen.

(** * The closed state *)

Module Closed.

Import Dispatch.

(** [on_success] of the base class, which the closed and the open handler
    inherit. *)
Lemma handle_success_recorded (s : Sys) :
  state_of s <> HALF_OPEN_STATE ->
  0 <= window_size_of s ->
  exists w : World,
    handle_success s
    = ({| env := w; cb := recorded true (reading s 0) (cb s) |}, Returned tt)
    /\ work_runs w = work_runs (env s)
    /\ utc_clock w = utc_clock (env s)
    /\ utc_reads w = S (utc_reads (env s)).
Proof.
  intros Hst HW. rewrite handle_success_eq.
  assert (Hb : on_success (handler_class (state_of s)) = Base.on_success)
    by (destruct (state_of s); [reflexivity|reflexivity|congruence]).
  rewrite Hb. unfold Base.on_success. unfold bind at 1.
  rewrite (Window.add_call_detail_recorded true s HW).
  unfold notify. cbn. eexists. split; [reflexivity|]. cbn. auto.
Qed.

Lemma recorded_not_empty (status : bool) (now : Z) (b : CircuitBreaker) :
  1 <= count_based_window_size (_storage_state b) ->
  (1 <= List.length (total_calls (_storage_state (recorded status now b))))%nat.
Proof.
  intros HW. cbn. rewrite Window.evicted_length by lia.
  rewrite length_app. cbn. lia.
Qed.

Lemma handle_failure_closed (exc : Exn) (s : Sys) :
  state_of s = CLOSED_STATE ->
  1 <= window_size_of s ->
  exists w : World,
    handle_failure exc s
    = ({| env := w; cb := closed_failed (reading s 0) (reading s 1) (cb s) |},
       Returned tt)
    /\ work_runs w = work_runs (env s)
    /\ utc_clock w = utc_clock (env s)
    /\ utc_reads w = S (S (utc_reads (env s))).
Proof.
  intros Hst HW. rewrite handle_failure_eq, Hst.
  cbn [handler_class on_failure CircuitCloseState].
  unfold bind at 1.
  rewrite (Window.add_call_detail_recorded false s) by lia.
  pose proof (recorded_not_empty false (reading s 0) (cb s) HW) as Hne.
  unfold update_last_failure_time, check_if_max_fails_reached,
    set_circuit_breaker_state, Base.on_failure, notify, utcnow, assign_storage,
    assign, storage, bind, ret, raise.
  cbn [env cb utc_clock utc_reads work_runs notified fst snd].
  unfold closed_failed, trips.
  cbn [_storage_state set_last_failure_time].
  set (b1 := recorded false (reading s 0) (cb s)) in *.
  replace (utc_clock (env s) (S (utc_reads (env s)))) with (reading s 1)
    by (unfold reading; f_equal; lia).
  destruct (Z.of_nat (List.length (total_calls (_storage_state b1)))
            >=? count_based_window_size (_storage_state b1)) eqn:Efull.
  - destruct (Z.of_nat (List.length (total_calls (_storage_state b1))) =? 0) eqn:E0.
    + apply Z.eqb_eq in E0. lia.
    + cbn [andb].
      destruct (Qle_bool _ _); eexists; (split; [reflexivity|]); cbn; auto.
  - cbn [andb]. eexists. split; [reflexivity|]. cbn. auto.
Qed.

(** A call made while the breaker is closed. *)
Lemma wrapper_closed_success {V : Type} (func : Work V) (s : Sys) :
  state_of s = CLOSED_STATE ->
  0 <= window_size_of s ->
  succeeds (storage_of s) func = true ->
  exists w : World,
    wrapper func s
    = ({| env := w; cb := recorded true (reading s 0) (cb s) |}, outcome func)
    /\ work_runs w = S (work_runs (env s)).
Proof.
  intros Hst HW Hok.
  rewrite (wrapper_admitted func s s)
    by (apply handle_before_call_not_open; congruence).
  destruct (succeeds_true _ _ Hok) as (v & Hv & Hb). rewrite Hv, Hb.
  destruct (handle_success_recorded (executed s)) as (w & Hw & H1 & _);
    [change (state_of s <> HALF_OPEN_STATE); congruence|exact HW|].
  unfold try_except, bind, ret. rewrite Hw.
  exists w. cbn in *. auto.
Qed.

Lemma wrapper_closed_failure {V : Type} (func : Work V) (s : Sys) :
  state_of s = CLOSED_STATE ->
  1 <= window_size_of s ->
  succeeds (storage_of s) func = false ->
  exists w : World,
    wrapper func s
    = ({| env := w; cb := closed_failed (reading s 0) (reading s 1) (cb s) |},
       Raised (failure_cause func))
    /\ work_runs w = S (work_runs (env s)).
Proof.
  intros Hst HW Hko.
  rewrite (wrapper_admitted_failure func s s)
    by (first [apply handle_before_call_not_open; congruence | exact Hko]).
  destruct (handle_failure_closed (failure_cause func) (executed s) Hst HW)
    as (w & Hw & H1 & _).
  unfold bind, raise. rewrite Hw. exists w. cbn in *. auto.
Qed.

End Closed.

(** * The history of outcomes and the trip condition *)

Module Trip.

Import Dispatch.

Lemma lastn_length {A : Type} (n : nat) (l : list A) :
  List.length (lastn n l) = Nat.min (List.length l) n.
Proof. unfold lastn. rewrite length_skipn. lia. Qed.

Lemma skipn_app_front {A : Type} (k : nat) (l r : list A) :
  (k <= List.length l)%nat -> skipn k (l ++ r) = skipn k l ++ r.
Proof.
  intros H. rewrite skipn_app.
  replace (k - List.length l)%nat with 0%nat by lia. reflexivity.
Qed.

(** The most recent entries of a history that grows only need the most
    recent entries of what came before. *)
Lemma lastn_app_lastn {A : Type} (n : nat) (l r : list A) :
  lastn n (lastn n l ++ r) = lastn n (l ++ r).
Proof.
  unfold lastn. rewrite !length_app, length_skipn.
  rewrite <- (skipn_app_front (List.length l - n) l r) by lia.
  rewrite skipn_skipn. f_equal. lia.
Qed.

Lemma statuses_evicted (size : Z) (q : list CallDetail) :
  map status (evicted size q) = lastn (Z.to_nat size) (map status q).
Proof. unfold evicted, lastn. now rewrite skipn_map, length_map. Qed.

Lemma count_fails_from (calls : list CallDetail) (n : Z) :
  fold_left (fun fail_counter call => fail_counter + (if status call then 0 else 1))
            calls n
  = n + failures (map status calls).
Proof.
  unfold failures. revert n. induction calls as [|c calls IH]; intros n.
  - cbn. lia.
  - cbn [fold_left map filter]. rewrite IH.
    destruct (status c); cbn [negb List.length]; lia.
Qed.

Lemma count_fails_failures (calls : list CallDetail) :
  count_fails calls = failures (map status calls).
Proof. unfold count_fails. now rewrite count_fails_from. Qed.

(** The trip condition of the source, in terms of the statuses in the
    window. *)
Lemma trips_iff (st : CircuitStorage) :
  trips st = true <->
  count_based_window_size st <= Z.of_nat (List.length (total_calls st))
  /\ (failure_rate st <= failure_fraction (map status (total_calls st)))%Q.
Proof.
  unfold trips, failure_fraction.
  rewrite andb_true_iff, Z.geb_leb, Z.leb_le, Qle_bool_iff.
  now rewrite count_fails_failures, length_map.
Qed.

Lemma wrapper_all_app_fst {V : Type} (funcs1 funcs2 : list (Work V)) (s : Sys) :
  fst (wrapper_all (funcs1 ++ funcs2) s)
  = fst (wrapper_all funcs2 (fst (wrapper_all funcs1 s))).
Proof.
  revert s. induction funcs1 as [|func rest IH]; intros s; [reflexivity|].
  cbn [app wrapper_all].
  destruct (wrapper func s) as [s1 r].
  specialize (IH s1).
  destruct (wrapper_all (rest ++ funcs2) s1) as [s2 rs].
  destruct (wrapper_all rest s1) as [s3 rs3]. cbn [fst] in *.
  rewrite IH. destruct (wrapper_all funcs2 s3). reflexivity.
Qed.

Lemma wrapper_all_one_fst {V : Type} (func : Work V) (s : Sys) :
  fst (wrapper_all [func] s) = after (wrapper func) s.
Proof. cbn. unfold after. now destruct (wrapper func s). Qed.

(** One call made while the breaker is closed: the record that enters the
    window, what stays, and when the circuit opens. *)
Lemma closed_step {V : Type} (func : Work V) (s : Sys) :
  state_of s = CLOSED_STATE ->
  1 <= window_size_of s ->
  let s1 := after (wrapper func) s in
  window_of s1
  = evicted (window_size_of s)
            (window_of s ++ [mkCallDetail (succeeds (storage_of s) func) (reading s 0)])
  /\ config_of (storage_of s1) = config_of (storage_of s)
  /\ (state_of s1 = CLOSED_STATE \/ state_of s1 = OPEN_STATE)
  /\ (state_of s1 = OPEN_STATE <->
      succeeds (storage_of s) func = false /\ trips (storage_of s1) = true).
Proof.
  intros Hst HW. cbv zeta. unfold after.
  destruct (succeeds (storage_of s) func) eqn:Hsucc.
  - destruct (Closed.wrapper_closed_success func s Hst ltac:(lia) Hsucc)
      as (w & Hw & _).
    rewrite Hw. cbn [fst].
    assert (Hst1 : state_of {| env := w; cb := recorded true (reading s 0) (cb s) |}
                   = CLOSED_STATE) by exact Hst.
    split; [reflexivity|]. split; [reflexivity|]. split; [left; exact Hst1|].
    rewrite Hst1. split; [discriminate|intros [H _]; discriminate].
  - destruct (Closed.wrapper_closed_failure func s Hst HW Hsucc) as (w & Hw & _).
    rewrite Hw. cbn [fst].
    unfold state_of, window_of, storage_of, closed_failed. cbn [cb].
    set (b1 := set_last_failure_time (Some (reading s 1))
                 (recorded false (reading s 0) (cb s))).
    assert (Hst1 : circuit_state (_storage_state b1) = CLOSED_STATE) by exact Hst.
    destruct (trips (_storage_state b1)) eqn:Etrip.
    + split; [reflexivity|]. split; [reflexivity|]. split; [right; reflexivity|].
      split; [intros _; split; [reflexivity|exact Etrip]|reflexivity].
    + split; [reflexivity|]. split; [reflexivity|]. split; [left; exact Hst1|].
      rewrite Hst1, Etrip. split; [discriminate|intros [_ H]; discriminate].
Qed.

Lemma succeeds_same_config {V : Type} (st st' : CircuitStorage) (func : Work V) :
  config_of st = config_of st' -> succeeds st func = succeeds st' func.
Proof.
  intros H. apply succeeds_same_duration.
  unfold config_of in H. congruence.
Qed.

Lemma window_size_same_config (st st' : CircuitStorage) :
  config_of st = config_of st' ->
  count_based_window_size st = count_based_window_size st'.
Proof. unfold config_of. congruence. Qed.

Lemma lastn_fits {A : Type} (n : nat) (l : list A) :
  (List.length l <= n)%nat -> lastn n l = l.
Proof.
  intros H. unfold lastn.
  replace (List.length l - n)%nat with 0%nat by lia. reflexivity.
Qed.

(** While the breaker stays closed its window holds the statuses of the
    most recent calls. *)
Lemma window_is_recent_history {V : Type} (funcs : list (Work V)) :
  forall s : Sys,
    state_of s = CLOSED_STATE ->
    1 <= window_size_of s ->
    window_bounded s ->
    closed_throughout funcs s ->
    map status (window_of (fst (wrapper_all funcs s)))
    = lastn (Z.to_nat (window_size_of s))
            (map status (window_of s) ++ map (succeeds (storage_of s)) funcs)
    /\ state_of (fst (wrapper_all funcs s)) = CLOSED_STATE
    /\ config_of (storage_of (fst (wrapper_all funcs s))) = config_of (storage_of s).
Proof.
  induction funcs as [|func rest IH]; intros s Hst HW Hb Hcl.
  - cbn [wrapper_all fst map]. rewrite app_nil_r.
    split; [|split; [exact Hst|reflexivity]].
    symmetry. apply lastn_fits. rewrite length_map.
    unfold window_bounded in Hb. lia.
  - destruct Hcl as [Hcl1 Hcl].
    change (func :: rest) with ([func] ++ rest).
    rewrite wrapper_all_app_fst, wrapper_all_one_fst.
    destruct (closed_step func s Hst HW) as (Hwin & Hcfg & _ & _).
    set (s1 := after (wrapper func) s) in *.
    assert (HW1 : window_size_of s1 = window_size_of s)
      by (apply window_size_same_config; exact Hcfg).
    destruct (IH s1) as (IH1 & IH2 & IH3).
    + exact Hcl1.
    + rewrite HW1. exact HW.
    + unfold window_bounded. rewrite Hwin, HW1.
      apply Window.evicted_bounded. lia.
    + exact Hcl.
    + split; [|split; [exact IH2|congruence]].
      rewrite IH1, HW1, Hwin, statuses_evicted, map_app. cbn [map status app].
      rewrite lastn_app_lastn, <- app_assoc. cbn [app].
      f_equal. f_equal. f_equal.
      apply map_ext. intros f. apply succeeds_same_config. exact Hcfg.
Qed.

(** C1, as the code has it. A breaker with window size W >= 1 and failure
    rate R that starts closed with an empty window, and is still closed
    after the calls [funcs], is open after one more call [func] if and
    only if that call is a failure, at least W outcomes have been
    recorded, [func]'s included, and the failed fraction of the W most
    recent of them is at least R; in particular it does not trip on fewer
    than W outcomes, nor when the outcome recorded is a success. With
    W = 10 and R = 0.5 the outcomes S,S,S,S,S,F,F,F,F,F leave the breaker
    closed up to the ninth and open at the tenth. *)
Theorem trips_on_failure_filling_the_window :
  (forall (V : Type) (s : Sys) (funcs : list (Work V)) (func : Work V),
      state_of s = CLOSED_STATE ->
      window_of s = [] ->
      1 <= window_size_of s ->
      closed_throughout funcs s ->
      let outcomes := map (succeeds (storage_of s)) (funcs ++ [func]) in
      state_of (fst (wrapper_all (funcs ++ [func]) s)) = OPEN_STATE
      <->
      succeeds (storage_of s) func = false
      /\ window_size_of s <= Z.of_nat (List.length outcomes)
      /\ (failure_rate (storage_of s)
          <= failure_fraction (lastn (Z.to_nat (window_size_of s)) outcomes))%Q)
  /\ (let s := fresh (Scenario.world Scenario.steady_clock) Scenario.demo_breaker in
      let funcs := [Scenario.S_; Scenario.S_; Scenario.S_; Scenario.S_; Scenario.S_;
                    Scenario.F_; Scenario.F_; Scenario.F_; Scenario.F_; Scenario.F_] in
      (forall k : nat, (k < 10)%nat ->
                       state_of (fst (wrapper_all (firstn k funcs) s)) = CLOSED_STATE)
      /\ state_of (fst (wrapper_all funcs s)) = OPEN_STATE).
Proof.
  split.
  - intros V s funcs func Hst Hempty HW Hcl outcomes.
    rewrite wrapper_all_app_fst, wrapper_all_one_fst.
    assert (Hb : window_bounded s)
      by (unfold window_bounded; rewrite Hempty; cbn; lia).
    destruct (window_is_recent_history funcs s Hst HW Hb Hcl) as (Hwin & Hst' & Hcfg).
    set (s' := fst (wrapper_all funcs s)) in *.
    assert (HW' : window_size_of s' = window_size_of s)
      by (apply window_size_same_config; exact Hcfg).
    destruct (closed_step func s' Hst' ltac:(lia)) as (Hwin1 & Hcfg1 & _ & Hopen).
    set (s1 := after (wrapper func) s') in *.
    rewrite Hopen, trips_iff.
    rewrite (succeeds_same_config _ _ func Hcfg) in *.
    assert (Hstat : map status (total_calls (storage_of s1))
                    = lastn (Z.to_nat (window_size_of s)) outcomes).
    { change (total_calls (storage_of s1)) with (window_of s1).
      rewrite Hwin1, statuses_evicted, map_app, Hwin, Hempty, HW'.
      cbn [map app status]. rewrite lastn_app_lastn.
      unfold outcomes. now rewrite map_app. }
    assert (Hlen : List.length (total_calls (storage_of s1))
                   = Nat.min (List.length outcomes) (Z.to_nat (window_size_of s))).
    { rewrite <- (length_map status), Hstat. apply lastn_length. }
    assert (HWs : count_based_window_size (storage_of s1) = window_size_of s).
    { rewrite <- HW'. apply window_size_same_config. exact Hcfg1. }
    assert (HR : failure_rate (storage_of s1) = failure_rate (storage_of s)).
    { unfold config_of in Hcfg, Hcfg1. congruence. }
    rewrite Hstat, Hlen, HWs, HR.
    split; intros (H1 & H2 & H3); (split; [exact H1|split; [lia|exact H3]]).
  - cbv zeta. split; [|vm_compute; reflexivity].
    intros k Hk.
    do 10 (destruct k as [|k]; [vm_compute; reflexivity|]). lia.
Qed.

(** The demonstration breaker, closed after five successes and four
    failures, and the failure that comes tenth. *)
Lemma trips_on_failure_filling_the_window_witness :
  let s := fresh (Scenario.world Scenario.steady_clock) Scenario.demo_breaker in
  let funcs := [Scenario.S_; Scenario.S_; Scenario.S_; Scenario.S_; Scenario.S_;
                Scenario.F_; Scenario.F_; Scenario.F_; Scenario.F_] in
  closed_throughout funcs s
  /\ (state_of (fst (wrapper_all (funcs ++ [Scenario.F_]) s)) = OPEN_STATE
      <->
      succeeds (storage_of s) Scenario.F_ = false
      /\ window_size_of s
         <= Z.of_nat (List.length (map (succeeds (storage_of s)) (funcs ++ [Scenario.F_])))
      /\ (failure_rate (storage_of s)
          <= failure_fraction
               (lastn (Z.to_nat (window_size_of s))
                      (map (succeeds (storage_of s)) (funcs ++ [Scenario.F_]))))%Q).
Proof.
  intros s funcs.
  assert (Hcl : closed_throughout funcs s) by (vm_compute; repeat split).
  split; [exact Hcl|].
  apply (proj1 trips_on_failure_filling_the_window Z s funcs Scenario.F_).
  - vm_compute. reflexivity.
  - vm_compute. reflexivity.
  - vm_compute. discriminate.
  - exact Hcl.
Defined.

(** C1, as the claim has it, fails on the claim's own example. With W = 10
    and R = 0.5 the outcomes F,F,F,F,F,S,S,S,S,S fill the window with a
    failed fraction of one half, and the breaker is closed after the
    tenth: recording a success does not evaluate the trip condition. *)
Lemma full_window_at_threshold_stays_closed :
  let s := fresh (Scenario.world Scenario.steady_clock) Scenario.demo_breaker in
  let funcs := [Scenario.F_; Scenario.F_; Scenario.F_; Scenario.F_; Scenario.F_;
                Scenario.S_; Scenario.S_; Scenario.S_; Scenario.S_; Scenario.S_] in
  let outcomes := map (succeeds (storage_of s)) funcs in
  window_size_of s = 10
  /\ (failure_rate (storage_of s) == 1 # 2)%Q
  /\ outcomes = [false; false; false; false; false; true; true; true; true; true]
  /\ (failure_rate (storage_of s)
      <= failure_fraction (lastn (Z.to_nat (window_size_of s)) outcomes))%Q
  /\ map status (window_of (fst (wrapper_all funcs s))) = outcomes
  /\ state_of (fst (wrapper_all funcs s)) = CLOSED_STATE
  /\ ~ (state_of (fst (wrapper_all funcs s)) = OPEN_STATE
        <-> (failure_rate (storage_of s)
             <= failure_fraction (lastn (Z.to_nat (window_size_of s)) outcomes))%Q).
Proof.
  cbv zeta.
  assert (Hfrac : (failure_rate
                     (storage_of (fresh (Scenario.world Scenario.steady_clock)
                                        Scenario.demo_breaker))
                   <= failure_fraction
                        (lastn (Z.to_nat 10)
                           [false; false; false; false; false;
                            true; true; true; true; true]))%Q)
    by (apply Qle_bool_iff; vm_compute; reflexivity).
  repeat split; try (vm_compute; reflexivity); try exact Hfrac.
  intros [_ H]. specialize (H Hfrac). vm_compute in H. discriminate H.
Qed.

End Trip.

(** * Slow calls *)

Module SlowCall.

Import Dispatch.

Lemma config_kept_by_handle_before_call (s : Sys) :
  config_of (storage_of (after handle_before_call s)) = config_of (storage_of s).
Proof.
  apply (preserves_handle_before_call
           (fun b => config_of (_storage_state b) = config_of (storage_of s))).
  - intros state b H. exact H.
  - reflexivity.
Qed.

(** With a window size of at least one [handle_failure] returns. *)
Lemma handle_failure_returns (exc : Exn) (s : Sys) :
  1 <= window_size_of s ->
  result_of (handle_failure exc) s = Returned tt.
Proof.
  intros HW. unfold result_of. destruct (state_of s) eqn:Hst.
  - rewrite handle_failure_eq, Hst. reflexivity.
  - destruct (Closed.handle_failure_closed exc s Hst HW) as (w & Hw & _).
    now rewrite Hw.
  - destruct (HalfOpen.handle_failure_half_open exc s Hst) as (w & Hw & _).
    now rewrite Hw.
Qed.

(** C3, as the code has it. With a slow-call duration configured and a
    window size of at least one, a call that got the permission, whose
    work returned a value and whose measured duration is at least the
    configured one, is dispatched as a failure whose cause is
    [CircuitExecutionTimeBreachedException] (and not as a success), and
    that exception, not the value, is what the caller gets. *)
Theorem slow_return_is_a_failure :
  forall (V : Type) (func : Work V) (s s1 : Sys) (d : Q) (v : V),
    slow_call_duration (storage_of s) = Some d ->
    (d <= ended func - began func)%Q ->
    outcome func = Returned v ->
    handle_before_call s = (s1, Returned tt) ->
    1 <= window_size_of s ->
    result_of (wrapper func) s = Raised CircuitExecutionTimeBreachedException
    /\ after (wrapper func) s
       = after (handle_failure CircuitExecutionTimeBreachedException) (executed s1)
    /\ work_runs (env (executed s1)) = S (work_runs (env s1)).
Proof.
  intros V func s s1 d v Hd Hslow Hv Hperm HW.
  pose proof (config_kept_by_handle_before_call s) as Hcfg.
  unfold after in Hcfg. rewrite Hperm in Hcfg. cbn [fst] in Hcfg.
  assert (Hd1 : slow_call_duration (storage_of s1) = Some d)
    by (unfold config_of in Hcfg; congruence).
  assert (HW1 : 1 <= window_size_of (executed s1)).
  { change (window_size_of (executed s1)) with (window_size_of s1).
    unfold window_size_of.
    rewrite (Trip.window_size_same_config _ _ Hcfg). exact HW. }
  assert (Hb : breached (storage_of s1) func = true).
  { unfold breached. rewrite Hd1. apply Qle_bool_iff. exact Hslow. }
  unfold result_of, after.
  rewrite (wrapper_admitted func s s1 Hperm), Hv, Hb.
  pose proof (handle_failure_returns CircuitExecutionTimeBreachedException
                (executed s1) HW1) as Hret.
  unfold result_of in Hret. unfold bind, raise.
  destruct (handle_failure CircuitExecutionTimeBreachedException (executed s1))
    as [s2 r]. cbn [snd] in Hret. subst r. cbn. auto.
Qed.

(** A two-second work that returns, under a slow-call duration of one
    second. *)
Lemma slow_return_is_a_failure_witness :
  let s := fresh (Scenario.world Scenario.steady_clock) Scenario.slow_breaker in
  result_of (wrapper Scenario.slow_return) s
  = Raised CircuitExecutionTimeBreachedException
  /\ map status (window_of (after (wrapper Scenario.slow_return) s)) = [false].
Proof.
  intros s.
  destruct (slow_return_is_a_failure Z Scenario.slow_return s s 1%Q 42)
    as (Hr & Hs & _).
  - reflexivity.
  - vm_compute. discriminate.
  - reflexivity.
  - reflexivity.
  - vm_compute. discriminate.
  - split; [exact Hr|]. rewrite Hs. vm_compute. reflexivity.
Defined.

(** C3, as the claim has it, fails when the work raises. Under a slow-call
    duration of one second, a work that raises after two seconds is
    dispatched as a failure whose cause is the work's own exception, and
    that exception is what the caller gets: the duration is not looked
    at. *)
Lemma slow_raise_keeps_its_own_error :
  let s := fresh (Scenario.world Scenario.steady_clock) Scenario.slow_breaker in
  slow_call_duration (storage_of s) = Some 1%Q
  /\ (1 <= ended Scenario.slow_raise - began Scenario.slow_raise)%Q
  /\ result_of (wrapper Scenario.slow_raise) s
     = Raised (WorkError "ZeroDivisionError")
  /\ result_of (wrapper Scenario.slow_raise) s
     <> Raised CircuitExecutionTimeBreachedException
  /\ notified (env (after (wrapper Scenario.slow_raise) s))
     = [(0%nat, NotifyFailure (WorkError "ZeroDivisionError"))].
Proof.
  cbv zeta. split; [reflexivity|]. split; [vm_compute; discriminate|].
  split; [vm_compute; reflexivity|]. split; [|vm_compute; reflexivity].
  vm_compute. discriminate.
Qed.

End SlowCall.

(** * Outcome records *)

Module Records.

Import Dispatch.

Lemma window_kept_by_handle_before_call (s : Sys) :
  window_of (after handle_before_call s) = window_of s.
Proof.
  apply (preserves_handle_before_call
           (fun b => total_calls (_storage_state b) = window_of s)).
  - intros state b H. exact H.
  - reflexivity.
Qed.

Lemma work_not_run_by_handle_before_call (s : Sys) :
  work_runs (env (after handle_before_call s)) = work_runs (env s).
Proof.
  unfold after. rewrite handle_before_call_eq.
  destruct (state_of s); [|reflexivity|reflexivity].
  cbn [handler_class before_call CircuitOpenState]. py_unfold. cbn.
  destruct (last_failure_time (cb s)); [|reflexivity].
  cbn. destruct (Qle_bool _ _); reflexivity.
Qed.

(** A call dispatched to the half-open handler touches the window only to
    empty it when the circuit closes. *)
Lemma half_open_dispatch_window {V : Type} (func : Work V) (s s1 : Sys) :
  handle_before_call s = (s1, Returned tt) ->
  state_of s1 = HALF_OPEN_STATE ->
  window_of (after (wrapper func) s) = window_of s1
  \/ (window_of (after (wrapper func) s) = []
      /\ state_of (after (wrapper func) s) = CLOSED_STATE).
Proof.
  intros Hperm Hst. unfold after.
  rewrite (wrapper_admitted func s s1 Hperm).
  assert (Hst' : state_of (executed s1) = HALF_OPEN_STATE) by exact Hst.
  assert (Hfail : forall e : Exn,
             window_of (fst ((handle_failure e ;; @raise V e) (executed s1)))
             = window_of s1).
  { intros e.
    destruct (HalfOpen.handle_failure_half_open e (executed s1) Hst') as (w & Hw & _).
    unfold bind, raise. rewrite Hw. reflexivity. }
  destruct (outcome func) as [v|e]; [|left; apply Hfail].
  destruct (breached (storage_of s1) func); [left; apply Hfail|].
  destruct (HalfOpen.handle_success_half_open (executed s1) Hst') as (w & Hw & _).
  unfold try_except, bind, ret. rewrite Hw. cbn [fst].
  unfold window_of, state_of, storage_of, half_open_succeeded. cbn [cb executed].
  destruct (_ >=? _); [right; split; reflexivity|left; reflexivity].
Qed.

(** C7, as the code has it. A call made while the breaker is closed (window
    size at least one) runs the work and puts one record in the window,
    carrying the status of the call: the window afterwards is the old
    window with that record appended, evicted down to the window size. A
    call whose outcome is dispatched while the breaker is half-open runs
    the work and creates no record: the window is left as it was, or
    emptied when the circuit closes. A call that is refused creates no
    record and runs no work. *)
Theorem one_record_per_call_while_closed :
  forall (V : Type) (func : Work V) (s : Sys),
    (state_of s = CLOSED_STATE ->
     1 <= window_size_of s ->
     window_of (after (wrapper func) s)
     = evicted (window_size_of s)
               (window_of s
                ++ [mkCallDetail (succeeds (storage_of s) func) (reading s 0)]))
    /\ (forall s1 : Sys,
          handle_before_call s = (s1, Returned tt) ->
          state_of s1 = HALF_OPEN_STATE ->
          window_of (after (wrapper func) s) = window_of s
          \/ (window_of (after (wrapper func) s) = []
              /\ state_of (after (wrapper func) s) = CLOSED_STATE))
    /\ (forall e : Exn,
          result_of handle_before_call s = Raised e ->
          result_of (wrapper func) s = Raised e
          /\ window_of (after (wrapper func) s) = window_of s
          /\ work_runs (env (after (wrapper func) s)) = work_runs (env s)).
Proof.
  intros V func s. split; [|split].
  - intros Hst HW. apply (Trip.closed_step func s Hst HW).
  - intros s1 Hperm Hst.
    pose proof (window_kept_by_handle_before_call s) as Hwin.
    unfold after in Hwin. rewrite Hperm in Hwin. cbn [fst] in Hwin.
    rewrite <- Hwin. apply (half_open_dispatch_window func s s1 Hperm Hst).
  - intros e Hrej. unfold result_of, after.
    rewrite (OpenState.wrapper_stops_at_permission func s e Hrej). cbn [fst snd].
    split; [reflexivity|].
    split; [apply window_kept_by_handle_before_call
           |apply work_not_run_by_handle_before_call].
Qed.

(** The demonstration breaker on its first failure, a probe call after the
    cool-down of a breaker that wants two trials, and a call refused
    during the cool-down. *)
Lemma one_record_per_call_while_closed_witness :
  let s := fresh (Scenario.world Scenario.steady_clock) Scenario.demo_breaker in
  let probing := Scenario.tripped_two_trials 11000000 in
  let cooling := Scenario.tripped 3000000 in
  map status (window_of (after (wrapper Scenario.F_) s)) = [false]
  /\ (window_of (after (wrapper Scenario.S_) probing) = window_of probing
      \/ (window_of (after (wrapper Scenario.S_) probing) = []
          /\ state_of (after (wrapper Scenario.S_) probing) = CLOSED_STATE))
  /\ window_of (after (wrapper Scenario.S_) cooling) = window_of cooling.
Proof.
  intros s probing cooling.
  destruct (one_record_per_call_while_closed Z Scenario.F_ s) as (Hclosed & _ & _).
  destruct (one_record_per_call_while_closed Z Scenario.S_ probing) as (_ & Hprobe & _).
  destruct (one_record_per_call_while_closed Z Scenario.S_ cooling) as (_ & _ & Hrej).
  split; [|split].
  - rewrite Hclosed; [vm_compute; reflexivity|reflexivity|vm_compute; discriminate].
  - apply (Hprobe (after handle_before_call probing)); vm_compute; reflexivity.
  - apply (Hrej CircuitOpenException). vm_compute. reflexivity.
Defined.

(** C7, as the claim has it, fails in the half-open state. A breaker that
    wants two trial calls tripped at time 0 on two failures; eleven
    seconds later a call is let through as a probe, its work runs and
    returns, and the window afterwards is the window before, two failure
    records: no record was created for the completed call. *)
Lemma probe_call_creates_no_record :
  let s := Scenario.tripped_two_trials 11000000 in
  state_of s = OPEN_STATE
  /\ result_of (wrapper Scenario.S_) s = Returned 42
  /\ work_runs (env (after (wrapper Scenario.S_) s)) = S (work_runs (env s))
  /\ state_of (after (wrapper Scenario.S_) s) = HALF_OPEN_STATE
  /\ window_size_of s = 2
  /\ map status (window_of s) = [false; false]
  /\ window_of (after (wrapper Scenario.S_) s) = window_of s
  /\ window_of (after (wrapper Scenario.S_) s)
     <> evicted (window_size_of s)
                (window_of s ++ [mkCallDetail true (reading s 0)]).
Proof.
  cbv zeta.
  do 7 (split; [vm_compute; reflexivity|]).
  vm_compute. discriminate.
Qed.

End Records.

(** * Who writes the last failure time *)

Module FailureTime.

Import Dispatch.

Lemma kept_circuit_state (t : option Z) (c : CircuitState) (b : CircuitBreaker) :
  kept t b -> kept t (set_storage (set_circuit_state c) b).
Proof. intros H. exact H. Qed.

Lemma kept_counter (t : option Z) (f : CircuitStorage -> Z) (b : CircuitBreaker) :
  kept t b ->
  kept t (set_storage (fun st => set_half_open_state_total_calls (f st) st) b).
Proof. intros H. exact H. Qed.

Lemma kept_window (t : option Z) (q : list CallDetail) (b : CircuitBreaker) :
  kept t b -> kept t (set_storage (set_total_calls q) b).
Proof. intros H. exact H. Qed.

Lemma settled_window (t : option Z) (state : CircuitState) (size : Z)
    (q : list CallDetail) (b : CircuitBreaker) :
  settled t state size b -> settled t state size (set_storage (set_total_calls q) b).
Proof. intros H. exact H. Qed.

Lemma kept_add_call_detail (t : option Z) (status : bool) :
  preserves (kept t) (add_call_detail status).
Proof. apply preserves_add_call_detail_blind. apply kept_window. Qed.

Lemma kept_update_total_calls_details (t : option Z) :
  preserves (kept t) update_total_calls_details.
Proof. apply preserves_update_total_calls_details_blind. apply kept_window. Qed.

Lemma kept_handle_before_call (t : option Z) : preserves (kept t) handle_before_call.
Proof. apply preserves_handle_before_call. apply kept_circuit_state. Qed.

Lemma kept_handle_success (t : option Z) : preserves (kept t) handle_success.
Proof.
  apply preserves_handle_success.
  - apply kept_circuit_state.
  - apply kept_counter.
  - intros b. apply kept_window.
  - apply kept_add_call_detail.
Qed.

Lemma settled_Base_on_success (t : option Z) (state : CircuitState) (size : Z) :
  preserves (settled t state size) Base.on_success.
Proof.
  unfold Base.on_success.
  apply preserves_bind; [|intros _; apply preserves_notify].
  apply preserves_add_call_detail_blind. apply settled_window.
Qed.

Lemma discard_after {A : Type} (m : Py A) (s : Sys) :
  after (discard m) s = after m s.
Proof.
  unfold after, discard, bind, ret. destruct (m s) as [s' [a|e]]; reflexivity.
Qed.

(** In the open state [on_failure] does nothing. *)
Lemma handle_failure_open (exc : Exn) (s : Sys) :
  state_of s = OPEN_STATE -> handle_failure exc s = (s, Returned tt).
Proof. intros Hst. rewrite handle_failure_eq, Hst. reflexivity. Qed.

(** When [handle_success] raises, the [handle_failure] that follows it in
    the wrapper does not get as far as the failure time. *)
Lemma kept_failure_after_raising_success (s : Sys) (e exc : Exn) :
  result_of handle_success s = Raised e ->
  last_failure_time (cb (after (handle_failure exc) (after handle_success s)))
  = last_failure_time (cb s).
Proof.
  intros Hr.
  destruct (CircuitState_eqb (state_of s) HALF_OPEN_STATE) eqn:Ehalf.
  - assert (Hst : state_of s = HALF_OPEN_STATE)
      by (destruct (state_of s); [discriminate|discriminate|reflexivity]).
    destruct (HalfOpen.handle_success_half_open s Hst) as (w & Hw & _).
    unfold result_of in Hr. rewrite Hw in Hr. discriminate.
  - assert (Hst : state_of s <> HALF_OPEN_STATE)
      by (intros H; rewrite H in Ehalf; discriminate).
    assert (HW : window_size_of s < 0).
    { destruct (Z.ltb_spec (window_size_of s) 0) as [H|H]; [exact H|].
      destruct (Closed.handle_success_recorded s Hst H) as (w & Hw & _).
      unfold result_of in Hr. rewrite Hw in Hr. discriminate. }
    assert (Hset : settled (last_failure_time (cb s)) (state_of s) (window_size_of s)
                           (cb (after handle_success s))).
    { unfold after. rewrite handle_success_eq.
      replace (on_success (handler_class (state_of s))) with Base.on_success
        by (destruct (state_of s); [reflexivity|reflexivity|congruence]).
      apply settled_Base_on_success. repeat split. }
    destruct Hset as (Hlft & Hst1 & HW1).
    set (s1 := after handle_success s) in *.
    destruct (state_of s) eqn:Estate; [| |congruence].
    + unfold after. rewrite (handle_failure_open exc s1 Hst1). exact Hlft.
    + unfold after at 1. rewrite handle_failure_eq.
      unfold state_of, storage_of. rewrite Hst1.
      cbn [handler_class on_failure CircuitCloseState].
      rewrite (bind_stops (add_call_detail false) _ s1 IndexError).
      * cbn [fst]. rewrite <- Hlft.
        apply (kept_add_call_detail (last_failure_time (cb s1)) false s1).
        reflexivity.
      * apply Window.add_call_detail_negative.
        unfold window_size_of, storage_of. rewrite HW1. exact HW.
Qed.

(** C8. Apart from the setter itself, from [handle_failure] in the closed
    or half-open state, and from a protected call that got the permission,
    failed, and is dispatched in the closed or half-open state, every
    operation of the breaker leaves [last_failure_time] as it was:
    successful calls, refused calls, a failure dispatched to the open
    handler, the permission check, the state setters, the window and
    counter methods and the checks. *)
Theorem last_failure_time_written_only_on_failure :
  forall (V : Type) (m : Method V) (s : Sys),
    ~ observes_failure m s ->
    last_failure_time (cb (after (invoke m) s)) = last_failure_time (cb s).
Proof.
  intros V m s Hno.
  set (t := last_failure_time (cb s)).
  assert (H0 : kept t (cb s)) by reflexivity.
  destruct m as [ | state | | state | | | | st | a b | | | | | | exc | | | | func];
    cbn [invoke observes_failure] in *.
  - apply (preserves_reset_calls (kept t)); [intros b; apply kept_window|exact H0].
  - apply (preserves_set_circuit_breaker_state (kept t));
      [apply kept_circuit_state|exact H0].
  - exfalso. apply Hno. exact I.
  - reflexivity.
  - apply (preserves_discard (kept t)); [|exact H0].
    apply preserves_check_if_max_fails_reached.
  - apply (preserves_discard (kept t)); [|exact H0].
    apply preserves_check_if_open_state_duration_elapsed.
  - apply (kept_update_total_calls_details t s H0).
  - apply (kept_add_call_detail t st s H0).
  - apply (preserves_check_if_execution_time_breached (kept t) _ _ s H0).
  - reflexivity.
  - reflexivity.
  - apply (preserves_discard (kept t)); [|exact H0].
    apply preserves_check_half_open_call_success.
  - apply (kept_handle_before_call t s H0).
  - apply (kept_handle_success t s H0).
  - destruct (state_of s) eqn:Hst.
    + unfold after. now rewrite (handle_failure_open exc s Hst).
    + exfalso. apply Hno. left. reflexivity.
    + exfalso. apply Hno. right. reflexivity.
  - reflexivity.
  - reflexivity.
  - reflexivity.
  - (* a protected call *)
    rewrite discard_after. unfold after.
    destruct (handle_before_call s) as [s1 r] eqn:Hperm.
    pose proof (kept_handle_before_call t s H0) as H1.
    pose proof (SlowCall.config_kept_by_handle_before_call s) as Hcfg.
    unfold after in H1, Hcfg. unfold result_of, after in Hno.
    rewrite Hperm in H1, Hcfg, Hno. cbn [fst snd] in H1, Hcfg, Hno.
    destruct r as [[]|e].
    + rewrite (wrapper_admitted func s s1 Hperm).
      destruct (succeeds (storage_of s) func) eqn:Hsucc.
      * rewrite <- (Trip.succeeds_same_config _ _ func Hcfg) in Hsucc.
        destruct (succeeds_true _ _ Hsucc) as (v & Hv & Hb). rewrite Hv, Hb.
        unfold try_except.
        pose proof (kept_handle_success t (executed s1) H1) as H2.
        pose proof (kept_failure_after_raising_success (executed s1)) as H3.
        unfold bind at 1, ret. unfold result_of, after in H2, H3.
        destruct (handle_success (executed s1)) as [s2 [[]|e]] eqn:Hs.
        -- exact H2.
        -- unfold bind, raise. specialize (H3 e e eq_refl). cbn [fst] in H3.
           destruct (handle_failure e s2) as [s3 [[]|e3]]; cbn [fst] in *;
             rewrite H3; exact H1.
      * rewrite <- (Trip.succeeds_same_config _ _ func Hcfg) in Hsucc.
        rewrite <- (wrapper_admitted func s s1 Hperm).
        rewrite (wrapper_admitted_failure func s s1 Hperm Hsucc).
        assert (Hst : state_of s1 = OPEN_STATE).
        { rewrite (Trip.succeeds_same_config _ _ func Hcfg) in Hsucc.
          destruct (state_of s1) eqn:E; [reflexivity| |];
            exfalso; apply Hno; auto. }
        unfold bind, raise.
        rewrite (handle_failure_open (failure_cause func) (executed s1) Hst).
        exact H1.
    + rewrite (OpenState.wrapper_stops_at_permission func s e);
        [|unfold result_of; now rewrite Hperm].
      unfold after. rewrite Hperm. exact H1.
Qed.

(** A successful call on the demonstration breaker, a refused call, and
    the state setter leave the failure time alone. *)
Lemma last_failure_time_written_only_on_failure_witness :
  let s := fresh (Scenario.world Scenario.steady_clock) Scenario.demo_breaker in
  let cooling := Scenario.tripped 3000000 in
  last_failure_time (cb (after (invoke (m_call Scenario.S_)) s))
  = last_failure_time (cb s)
  /\ last_failure_time (cb (after (invoke (m_call Scenario.F_)) cooling))
     = last_failure_time (cb cooling)
  /\ last_failure_time
       (cb (after (invoke (V := Z) (m_set_circuit_breaker_state OPEN_STATE)) s))
     = last_failure_time (cb s).
Proof.
  intros s cooling. split; [|split].
  - apply (last_failure_time_written_only_on_failure Z (m_call Scenario.S_) s).
    cbn [observes_failure]. intros (_ & H & _). vm_compute in H. discriminate H.
  - apply (last_failure_time_written_only_on_failure Z (m_call Scenario.F_) cooling).
    cbn [observes_failure]. intros (H & _). vm_compute in H. discriminate H.
  - apply (last_failure_time_written_only_on_failure Z
             (m_set_circuit_breaker_state OPEN_STATE) s).
    cbn [observes_failure]. intros H. exact H.
Defined.

End FailureTime.
